(** * ReferenceManager: citation order, labels and change detection

    A shallow embedding of [src/editor/util/ReferenceManager.js].

    The document, the entity database, the label generator and the engine's
    [Array.prototype.sort] are collaborators of the class; they appear here
    as a small document model and as section variables.

    Modelling conventions:
    - a node object is referred to by its id, and the document is the store
      of node objects ([doc.get(id)]); writing [node.state] updates the
      store, so every alias of the node sees the write;
    - the objects that [_updateCitationLabels] creates with [{}] and uses
      as dictionaries ([order], [refLabels], [xrefLabels]) are finite maps
      of their own properties, read, assigned and asked for own properties
      as objects that inherit from [Object.prototype] are ([JS.read],
      [JS.assign], [JS.hasOwnProperty]); [change.updated] belongs to the
      [DocumentChange] of the host and is the set of ids assigned to it;
    - a value read from such an object is its own value, an inherited
      member of [Object.prototype] or [undefined] ([JS.Value]); elsewhere
      [undefined] is [None]; a [TypeError] is an explicit outcome;
    - positions are natural numbers (the counter starts at 1 and is only
      ever incremented). *)

From Stdlib Require Import ZArith Ascii String.
From stdpp Require Import gmap strings list fin_maps pretty.

Local Open Scope string_scope.
Local Open Scope list_scope.

(** ** JavaScript primitives *)

Module JS.

(** [s.split(sep)] for a one-character separator: every occurrence of
    the separator ends a piece, so the result is never empty and
    ["".split(" ")] is [[""]]. *)
Fixpoint split (sep : ascii) (s : string) : list string :=
  match s with
  | EmptyString => [EmptyString]
  | String c s' =>
      if decide (c = sep) then EmptyString :: split sep s'
      else match split sep s' with
           | w :: ws => String c w :: ws
           | [] => [String c EmptyString]
           end
  end.

(** The own properties of [Object.prototype]: every object written [{}]
    inherits them. All are functions, except [__proto__], an accessor
    whose getter returns the prototype of the object, here
    [Object.prototype] itself, and whose setter ignores a value that is
    neither an object nor [null]. *)
Definition prototype_members : list string :=
  [ "constructor"; "__defineGetter__"; "__defineSetter__"; "hasOwnProperty";
    "__lookupGetter__"; "__lookupSetter__"; "isPrototypeOf";
    "propertyIsEnumerable"; "toString"; "valueOf"; "__proto__";
    "toLocaleString" ].

(** What [obj[key]] gives for an object written [{}] whose own properties
    hold values of type [A]. *)
Inductive Value (A : Type) :=
  | Own (a : A)
  | Inherited (name : string)
  | Undefined.
Arguments Own {A} a.
Arguments Inherited {A} name.
Arguments Undefined {A}.

(** [obj[key]]: the own property if there is one, else what
    [Object.prototype] has under that name. *)
Definition read {A} (obj : gmap string A) (key : string) : Value A :=
  match obj !! key with
  | Some a => Own a
  | None =>
      if bool_decide (key ∈ prototype_members) then Inherited key
      else Undefined
  end.

(** [obj[key] = v] for a primitive [v]: an own property is created or
    overwritten, except under [__proto__], where the inherited setter is
    called and does nothing. *)
Definition assign {A} (obj : gmap string A) (key : string) (v : A)
  : gmap string A :=
  if bool_decide (key = "__proto__") then obj else <[key := v]> obj.

(** [obj.hasOwnProperty(key)]: the method is looked up on the object
    first, so an own property named [hasOwnProperty] (a primitive here) is
    what gets called, which is a [TypeError]. *)
Definition hasOwnProperty {A} (obj : gmap string A) (key : string)
  : option bool :=
  match obj !! "hasOwnProperty" with
  | Some _ => None
  | None => Some (bool_decide (is_Some (obj !! key)))
  end.

(** [v || ''] for [v] read from a table of strings: the empty string and
    [undefined] are falsy, an inherited member is an object and truthy. *)
Definition or_empty (v : Value string) : Value string :=
  match v with
  | Own s => if decide (s = "") then Own "" else Own s
  | Inherited name => Inherited name
  | Undefined => Own ""
  end.

(** The primitive that an inherited member converts to in a comparison:
    the source text of a built-in function, and ["[object Object]"] for
    [Object.prototype]. The function under [constructor] is [Object]. *)
Definition member_source (name : string) : string :=
  if decide (name = "__proto__") then "[object Object]"
  else "function "
       +:+ (if decide (name = "constructor") then "Object" else name)
       +:+ "() { [native code] }".

(** [a > b] on values read from a table of numbers. Two objects are
    compared as strings; in every other case a number is compared with
    [NaN] unless both are numbers, and a comparison with [NaN] is false. *)
Definition gt (a b : Value nat) : bool :=
  match a, b with
  | Own x, Own y => bool_decide (y < x)
  | Inherited m, Inherited n => String.ltb (member_source n) (member_source m)
  | _, _ => false
  end.

(** [ToNumber] of a boolean, as [sort] applies it to what the comparator
    returns. *)
Definition to_number (b : bool) : Z := if b then 1%Z else 0%Z.

End JS.

(** ** Data model *)

(** The argument of [labelGenerator.getLabel]: a single position (line 160)
    or an array of positions (line 164). *)
Inductive LabelArg :=
  | Position (n : JS.Value nat)
  | Positions (ns : list (JS.Value nat)).

(** [node.state]: a bag of transient fields; the manager uses three. *)
Record NodeState {Entity : Type} := mkState {
  label : JS.Value string;
  pos : JS.Value nat;
  entity : option Entity
}.
Arguments NodeState : clear implicits.
Arguments mkState {Entity} _ _ _.

(** An element node of the XML document. *)
Record Node {Entity : Type} := mkNode {
  type : string;
  parent : option string;
  attributes : gmap string string;
  state : option (NodeState Entity)
}.
Arguments Node : clear implicits.
Arguments mkNode {Entity} _ _ _ _.

(** The document: the node store keyed by id, and the ids in document
    order (the order in which [findAll] reports matches). *)
Record Document {Entity : Type} := mkDoc {
  nodes : gmap string (Node Entity);
  sequence : list string
}.
Arguments Document : clear implicits.
Arguments mkDoc {Entity} _ _.

(** The three selectors the manager passes to [find] and [findAll]. *)
Inductive Selector :=
  | sel_ref_list          (* 'ref-list' *)
  | sel_ref_list_ref      (* 'ref-list > ref' *)
  | sel_xref_bibr.        (* "xref[ref-type='bibr']" *)

(** The data of a node as a [create] or [delete] operation carries it in
    [op.val]. *)
Record NodeData := mkData {
  data_type : string;
  data_attributes : option (gmap string string)
}.

(** A document operation. [val] and [original] of a [set] are arbitrary
    values; only their being a given string matters, so any other value is
    [None]. *)
Inductive Op :=
  | op_create (val : NodeData)
  | op_delete (val : NodeData)
  | op_set (path : list string) (val original : option string)
  | op_other.

(** The tables built by lines 150-165. *)
Record Labels := mkLabels {
  next_pos : nat;
  order : gmap string nat;
  refLabels : gmap string string;
  xrefLabels : gmap string string
}.

(** How a call of [_updateCitationLabels] ends. *)
Inductive Outcome :=
  | Skipped                          (* the early return of line 148 *)
  | Flow (updated : gset string)     (* [startFlow] with [change.updated] *)
  | TypeError.

Section Document.
Context {Entity : Type}.
Implicit Types (d : Document Entity) (n : Node Entity) (id : string).

Definition get d id : option (Node Entity) := nodes d !! id.

Definition getAttribute d id (name : string) : option string :=
  n ← get d id; attributes n !! name.

Definition has_type d (id : option string) (t : string) : bool :=
  match id ≫= get d with
  | Some n => bool_decide (type n = t)
  | None => false
  end.

Definition matches (sel : Selector) d id : bool :=
  match sel with
  | sel_ref_list => has_type d (Some id) "ref-list"
  | sel_ref_list_ref =>
      has_type d (Some id) "ref" && has_type d (get d id ≫= parent) "ref-list"
  | sel_xref_bibr =>
      has_type d (Some id) "xref"
      && bool_decide (getAttribute d id "ref-type" = Some "bibr")
  end.

Definition findAll (sel : Selector) d : list string :=
  List.filter (matches sel d) (sequence d).

Definition find (sel : Selector) d : option string := head (findAll sel d).

(** [if (!node.state) node.state = {}] followed by assignments to fields
    of [node.state]. *)
Definition empty_state : NodeState Entity :=
  mkState JS.Undefined JS.Undefined None.

Definition update_state (f : NodeState Entity → NodeState Entity) n : Node Entity :=
  mkNode (type n) (parent n) (attributes n)
         (Some (f (default empty_state (state n)))).

Definition write_state (f : NodeState Entity → NodeState Entity) d id : Document Entity :=
  mkDoc (alter (update_state f) id (nodes d)) (sequence d).

Definition state_pos d id : JS.Value nat :=
  from_option pos JS.Undefined (get d id ≫= state).
Definition state_label d id : JS.Value string :=
  from_option label JS.Undefined (get d id ≫= state).
Definition state_entity d id : option Entity :=
  n ← get d id; s ← state n; entity s.

End Document.

(** ** The manager *)

Section ReferenceManager.
Context {Entity : Type}.

(** [this.labelGenerator.getLabel], supplied by the configurator. *)
Variable getLabel : LabelArg → string.
(** [this.entityDbSession.getDocument().get]. *)
Variable entityDb : string → option Entity.
(** The engine's [Array.prototype.sort], on an array of node objects and
    with the numeric result of the comparator. *)
Variable sort : (string → string → Z) → list string → list string.

Implicit Types (d : Document Entity) (t : Labels).

(** *** [getBibliography] (lines 50-68) *)

(** The callback of [refs.map] (lines 56-64): it returns the node it was
    given, after filling in [state] and [state.entity]. *)
Definition resolve_entity d (ref : string) : Document Entity :=
  let refId := getAttribute d ref "rid" in
  write_state
    (λ s, mkState (label s) (pos s)
                  (match entity s with
                   | Some e => Some e
                   | None => refId ≫= entityDb
                   end))
    d ref.

(** The comparator of lines 65-67: a boolean, which [sort] reads as a
    number. *)
Definition compare_pos d (a b : string) : Z :=
  JS.to_number (JS.gt (state_pos d a) (state_pos d b)).

Definition getBibliography d : Document Entity * list string :=
  let refs := findAll sel_ref_list_ref d in
  let d' := foldl resolve_entity d refs in
  (d', sort (compare_pos d') refs).

(** *** [_updateCitationLabels] (lines 142-198) *)

(** The body of [rids.forEach] (lines 158-162), with the value it pushes
    on [numbers]. [order.hasOwnProperty(id)] may throw; [order[id]] is read
    back after the assignment, for [getLabel] and for [numbers]. *)
Definition visit_rid t (id : string) : option (Labels * JS.Value nat) :=
  match JS.hasOwnProperty (order t) id with
  | None => None
  | Some true => Some (t, JS.read (order t) id)
  | Some false =>
      let order' := JS.assign (order t) id (next_pos t) in
      let refLabels' :=
        JS.assign (refLabels t) id (getLabel (Position (JS.read order' id))) in
      Some (mkLabels (S (next_pos t)) order' refLabels' (xrefLabels t),
            JS.read order' id)
  end.

Fixpoint forEach_rid (rids : list string) t (numbers : list (JS.Value nat))
  : option (Labels * list (JS.Value nat)) :=
  match rids with
  | [] => Some (t, numbers)
  | id :: rest =>
      match visit_rid t id with
      | None => None
      | Some (t', n) => forEach_rid rest t' (numbers ++ [n])
      end
  end.

(** [xrefs.forEach] of lines 154-165. [getAttribute('rid')] of a node
    without that attribute is [undefined], and [undefined.split] throws. *)
Fixpoint forEach_xref d (xrefs : list string) t : option Labels :=
  match xrefs with
  | [] => Some t
  | xref :: rest =>
      match getAttribute d xref "rid" with
      | None => None
      | Some rid =>
          match forEach_rid (JS.split " " rid) t [] with
          | None => None
          | Some (t', numbers) =>
              forEach_xref d rest
                (mkLabels (next_pos t') (order t') (refLabels t')
                   (JS.assign (xrefLabels t') xref
                              (getLabel (Positions numbers))))
          end
      end
  end.

(** Lines 150-153. *)
Definition initial_labels : Labels := mkLabels 1 ∅ ∅ ∅.

(** The body of the second [xrefs.forEach] (lines 173-178), on the
    document and [change.updated]. *)
Definition write_xref t (acc : Document Entity * gset string) (xref : string)
  : Document Entity * gset string :=
  let label := JS.read (xrefLabels t) xref in
  (write_state (λ s, mkState label (pos s) (entity s)) acc.1 xref,
   acc.2 ∪ {[xref]}).

(** The body of [refs.forEach] (lines 182-188). *)
Definition write_ref t (acc : Document Entity * gset string) (ref : string)
  : Document Entity * gset string :=
  let label := JS.read (refLabels t) ref in
  (write_state
     (λ s, mkState (JS.or_empty label) (JS.read (order t) ref) (entity s))
     acc.1 ref,
   acc.2 ∪ {[ref]}).

Definition _updateCitationLabels d : Document Entity * Outcome :=
  let refList := find sel_ref_list d in
  let xrefs := findAll sel_xref_bibr d in
  if bool_decide (length xrefs = 0) then (d, Skipped)
  else
    match forEach_xref d xrefs initial_labels with
    | None => (d, TypeError)
    | Some t =>
        let change := foldl (write_xref t) (d, ∅) xrefs in
        let '(d', refs) := getBibliography change.1 in
        let change := foldl (write_ref t) (d', change.2) refs in
        match refList with
        | None => (change.1, TypeError)        (* [refList.id] of [null] *)
        | Some refList => (change.1, Flow (change.2 ∪ {[refList]}))
        end
    end.

(** *** [_onDocumentChange] (lines 74-124) *)

(** One turn of the loop body (lines 85-113): does this operation set
    [needsUpdate]? *)
Definition op_needsUpdate d (op : Op) : bool :=
  match op with
  | op_delete val | op_create val =>
      bool_decide (data_type val = "xref")
      && match data_attributes val with
         | Some attrs => bool_decide (attrs !! "ref-type" = Some "bibr")
         | None => false
         end
  | op_set path val original =>
      if bool_decide (path !! 1%nat = Some "attributes") then
        if bool_decide (path !! 2%nat = Some "ref-type")
           && (bool_decide (val = Some "bibr")
               || bool_decide (original = Some "bibr"))
        then true
        else if bool_decide (path !! 2%nat = Some "rid") then
          match path !! 0%nat ≫= get d with
          | Some node => bool_decide (attributes node !! "ref-type" = Some "bibr")
          | None => false
          end
        else false
      else false
  | op_other => false
  end.

(** The loop of lines 83-115, which stops at the first operation that
    sets the flag. *)
Fixpoint needsUpdate d (ops : list Op) : bool :=
  match ops with
  | [] => false
  | op :: rest => if op_needsUpdate d op then true else needsUpdate d rest
  end.

(** The callbacks handed to [setTimeout]; the manager has one. *)
Inductive Task := task_updateCitationLabels.

(** The editor session as the manager sees it: the current document and
    the callbacks waiting in the timer queue. *)
Record EditorSession := mkSession {
  getDocument : Document Entity;
  timers : list Task
}.

Definition _onDocumentChange (s : EditorSession) (ops : list Op) : EditorSession :=
  if needsUpdate (getDocument s) ops
  then mkSession (getDocument s) (timers s ++ [task_updateCitationLabels])
  else s.

(** The session commits a transaction: the document is replaced and the
    manager is notified with the operations. *)
Definition commit (s : EditorSession) (d' : Document Entity) (ops : list Op)
  : EditorSession :=
  _onDocumentChange (mkSession d' (timers s)) ops.

(** The event loop runs the waiting callbacks in order; each reads the
    document as it is when the callback runs. The change that a call hands
    to the flow is built without operations (line 170), and a change
    without operations needs no update, so running a callback adds nothing
    to the queue. *)
Fixpoint run_timers (ts : list Task) d : Document Entity * list Outcome :=
  match ts with
  | [] => (d, [])
  | task_updateCitationLabels :: rest =>
      let '(d', o) := _updateCitationLabels d in
      let '(d'', os) := run_timers rest d' in
      (d'', o :: os)
  end.

Definition run_pending (s : EditorSession) : EditorSession * list Outcome :=
  let '(d, os) := run_timers (timers s) (getDocument s) in
  (mkSession d [], os).

End ReferenceManager.

Arguments EditorSession : clear implicits.

(** ** Sample collaborators and documents *)

Module Sample.

(** Modelled from the spec: the label generator is supplied by the
    configurator and is not part of the source; this is the generator of
    the spec's property P3 (a position prints as its decimal numeral, a
    list of positions as the numerals joined by commas). What is not a
    number prints as [String] and [join] print it. *)
Definition numeric_label (a : LabelArg) : string :=
  let text (undefined : string) (v : JS.Value nat) : string :=
    match v with
    | JS.Own n => pretty n
    | JS.Inherited name => JS.member_source name
    | JS.Undefined => undefined
    end in
  match a with
  | Position n => text "undefined" n
  | Positions ns => String.concat "," (text "" <$> ns)
  end.

(** An entity database that knows two records. *)
Definition entities (refId : string) : option string :=
  if decide (refId = "entity-1") then Some "Knuth 1968"
  else if decide (refId = "entity-2") then Some "Dijkstra 1959"
  else None.

(** Two instances of the engine's [sort], which the language leaves to the
    engine: insertion sorts that walk from the right end of the sorted
    prefix (kept here in reverse) and differ in the test that moves an
    element [tmp] of the prefix past the element being inserted. With a
    comparator that orders its arguments both sort, and both are stable. *)
Fixpoint insert_by {A} (moves : A → A → bool) (element : A) (rprefix : list A)
  : list A :=
  match rprefix with
  | [] => [element]
  | tmp :: rest =>
      if moves tmp element then tmp :: insert_by moves element rest
      else element :: rprefix
  end.

Definition insertion_sort_by {A} (moves : A → A → bool) (l : list A) : list A :=
  rev (foldl (λ rprefix element, insert_by moves element rprefix) [] l).

(** [comparefn(tmp, element) > 0] moves [tmp]. *)
Definition sort_gt {A} (comparefn : A → A → Z) : list A → list A :=
  insertion_sort_by (λ tmp element, bool_decide (0 < comparefn tmp element)%Z).

(** [comparefn(element, tmp) < 0] moves [tmp]. *)
Definition sort_lt {A} (comparefn : A → A → Z) : list A → list A :=
  insertion_sort_by (λ tmp element, bool_decide (comparefn element tmp < 0)%Z).

Definition element (ty : string) (par : option string)
    (attrs : list (string * string)) : Node string :=
  mkNode ty par (list_to_map attrs) None.

Definition xref (rid : string) : Node string :=
  element "xref" (Some "body") [("ref-type", "bibr"); ("rid", rid)].

Definition ref (rid : string) : Node string :=
  element "ref" (Some "ref-list-1") [("rid", rid)].

Definition document (l : list (string * Node string)) : Document string :=
  mkDoc (list_to_map l) (l.*1).

(** The markers of the spec's property P2, [B A] then [A C], over a
    reference list with the entries [A], [B], [C] and [D]. *)
Definition doc_P2 : Document string :=
  document
    [ ("body", element "body" None []);
      ("x1", xref "B A");
      ("x2", xref "A C");
      ("ref-list-1", element "ref-list" None []);
      ("A", ref "entity-1");
      ("B", ref "entity-2");
      ("C", ref "entity-3");
      ("D", ref "entity-4") ].

Definition recompute := _updateCitationLabels numeric_label entities sort_gt.

(** An editing step of the host: the node [k] is deleted. *)
Definition remove_node (k : string) (d : Document string) : Document string :=
  mkDoc (delete k (nodes d)) (List.filter (λ id, bool_decide (id ≠ k)) (sequence d)).

(** One marker that cites the one entry of the reference list by its node
    id. *)
Definition doc_one : Document string :=
  document
    [ ("x1", xref "r1");
      ("ref-list-1", element "ref-list" None []);
      ("r1", ref "entity-1") ].

(** One marker whose [rid] is the value of the entry's [rid] attribute,
    not the entry's node id. *)
Definition doc_by_rid : Document string :=
  document
    [ ("x1", xref "entity-1");
      ("ref-list-1", element "ref-list" None []);
      ("r1", ref "entity-1") ].

(** A marker with an empty [rid] attribute before a marker that cites
    [r1]. *)
Definition doc_empty_rid : Document string :=
  document
    [ ("x1", xref "");
      ("x2", xref "r1");
      ("ref-list-1", element "ref-list" None []);
      ("r1", ref "entity-1") ].

(** A marker that lists the same identifier twice. *)
Definition doc_duplicate : Document string :=
  document
    [ ("x1", xref "A B A");
      ("ref-list-1", element "ref-list" None []);
      ("A", ref "entity-1");
      ("B", ref "entity-2") ].

(** A marker without a [rid] attribute. *)
Definition doc_no_rid : Document string :=
  document
    [ ("x1", element "xref" (Some "body") [("ref-type", "bibr")]);
      ("ref-list-1", element "ref-list" None []);
      ("r1", ref "entity-1") ].

(** A marker that cites [r2] before [r1], over a reference list that holds
    [r0], [r1] and [r2] in this order. *)
Definition doc_unsorted : Document string :=
  document
    [ ("x1", xref "r2 r1");
      ("ref-list-1", element "ref-list" None []);
      ("r0", ref "entity-0");
      ("r1", ref "entity-1");
      ("r2", ref "entity-2") ].

(** Two transactions on [doc_P2] without its second marker: the marker
    [x2] is created citing [A], then retargeted to [A C]. *)
Definition doc_P2_first : Document string :=
  document
    [ ("body", element "body" None []);
      ("x1", xref "B A");
      ("x2", xref "A");
      ("ref-list-1", element "ref-list" None []);
      ("A", ref "entity-1");
      ("B", ref "entity-2");
      ("C", ref "entity-3");
      ("D", ref "entity-4") ].

Definition ops_create_x2 : list Op :=
  [ op_create (mkData "xref" (Some (list_to_map [("ref-type", "bibr"); ("rid", "A")]))) ].

Definition ops_retarget_x2 : list Op :=
  [ op_set ["x2"; "attributes"; "rid"] (Some "A C") (Some "A") ].

Definition session_P2 : EditorSession string :=
  commit (commit (mkSession (remove_node "x2" doc_P2) []) doc_P2_first ops_create_x2)
         doc_P2 ops_retarget_x2.

End Sample.

(** ** Notions used in the statements *)

Section Notions.
Context {Entity : Type}.
Implicit Types (d : Document Entity) (t : Labels).

(** The identifiers a marker lists, in its own order: the pieces of its
    [rid] attribute. *)
Definition rids_of d (xref : string) : list string :=
  from_option (JS.split " ") [] (getAttribute d xref "rid").

(** The identifiers of a sequence of markers, in reading order. *)
Definition all_rids d (xrefs : list string) : list string :=
  xrefs ≫= rids_of d.

(** [id] is listed by some in-scope marker of the document. *)
Definition referenced d (id : string) : Prop :=
  ∃ xref, xref ∈ findAll sel_xref_bibr d ∧ id ∈ rids_of d xref.

(** What a write to [node.state] leaves alone. *)
Definition skeleton (n : Node Entity) : string * option string * gmap string string :=
  (type n, parent n, attributes n).

Definition same_skeleton d d' : Prop :=
  sequence d' = sequence d ∧ ∀ k, skeleton <$> get d' k = skeleton <$> get d k.

(** A [forEach] whose body only writes the state of the node it is given. *)
Definition apply_at (F : string → NodeState Entity → NodeState Entity)
    (l : list string) d : Document Entity :=
  foldl (λ d id, write_state (F id) d id) d l.

(** The three writes of [_updateCitationLabels], as functions of the node
    id: lines 177, 61-63 and 186-187. *)
Definition set_xref_label t (xref : string) (s : NodeState Entity) : NodeState Entity :=
  mkState (JS.read (xrefLabels t) xref) (pos s) (entity s).

Definition set_entity (entityDb : string → option Entity) d (ref : string)
    (s : NodeState Entity) : NodeState Entity :=
  mkState (label s) (pos s)
          (match entity s with
           | Some e => Some e
           | None => getAttribute d ref "rid" ≫= entityDb
           end).

Definition set_ref_label t (ref : string) (s : NodeState Entity) : NodeState Entity :=
  mkState (JS.or_empty (JS.read (refLabels t) ref)) (JS.read (order t) ref)
          (entity s).

(** An identifier that the tables of [_updateCitationLabels] treat as any
    other key: once [hasOwnProperty] is an own property of [order] the
    next call of the method throws, and [__proto__] never becomes an own
    property. *)
Definition plain (id : string) : Prop :=
  id ≠ "hasOwnProperty" ∧ id ≠ "__proto__".

(** Reading these identifiers one after the other makes the loop throw:
    [hasOwnProperty] is read and another identifier follows it. *)
Definition hasOwnProperty_then_more (ids : list string) : Prop :=
  ∃ pre post, ids = pre ++ "hasOwnProperty" :: post ∧ post ≠ [].

(** The same as a test, started with whether [order] already has the own
    property [hasOwnProperty]. *)
Fixpoint throws (has : bool) (ids : list string) : bool :=
  match ids with
  | [] => false
  | id :: rest => has || throws (bool_decide (id = "hasOwnProperty")) rest
  end.

Definition has_hasOwnProperty (t : Labels) : bool :=
  bool_decide (is_Some (order t !! "hasOwnProperty")).

#[global] Instance plain_dec (id : string) : Decision (plain id).
Proof. unfold plain. apply _. Defined.

(** The rules of the change classifier, as the specification words them. *)
Definition bibr_xref (val : NodeData) : Prop :=
  data_type val = "xref"
  ∧ ∃ attrs, data_attributes val = Some attrs ∧ attrs !! "ref-type" = Some "bibr".

Definition sets_attribute (path : list string) (name : string) : Prop :=
  path !! 1%nat = Some "attributes" ∧ path !! 2%nat = Some name.

Inductive relevant d : Op → Prop :=
  | rule1_create val :
      bibr_xref val → relevant d (op_create val)
  | rule1_delete val :
      bibr_xref val → relevant d (op_delete val)
  | rule2 path val original :
      sets_attribute path "ref-type" →
      val = Some "bibr" ∨ original = Some "bibr" →
      relevant d (op_set path val original)
  | rule3 path val original node :
      sets_attribute path "rid" →
      path !! 0%nat ≫= get d = Some node →
      attributes node !! "ref-type" = Some "bibr" →
      relevant d (op_set path val original).

End Notions.

Section LabelsInvariant.
Context (getLabel : LabelArg → string).

(** What the tables hold once the identifiers [seen] have been visited, in
    that order. *)
Record labels_inv (t : Labels) (seen : list string) : Prop := mkInv {
  inv_dom : ∀ id, is_Some (order t !! id) ↔ id ∈ seen;
  inv_next : next_pos t = S (size (order t));
  inv_rank : ∀ (pre : list string) (id : string) (post : list string),
    seen = pre ++ id :: post → id ∉ pre →
    order t !! id = Some (S (size (list_to_set pre : gset string)));
  inv_range : ∀ n, (∃ id, order t !! id = Some n) ↔ 1 ≤ n < next_pos t;
  inv_inj : ∀ a b n, order t !! a = Some n → order t !! b = Some n → a = b;
  inv_refLabels : ∀ id,
    refLabels t !! id = (λ n, getLabel (Position (JS.Own n))) <$> order t !! id
}.

(** What the body of [rids.forEach] does for a plain identifier while
    [order] has no own property [hasOwnProperty]: the tables are finite
    maps and the value pushed is a number. *)
Definition plain_visit_rid (t : Labels) (id : string) : Labels * nat :=
  match order t !! id with
  | Some n => (t, n)
  | None =>
      (mkLabels (S (next_pos t))
                (<[id := next_pos t]> (order t))
                (<[id := getLabel (Position (JS.Own (next_pos t)))]> (refLabels t))
                (xrefLabels t),
       next_pos t)
  end.

End LabelsInvariant.

Section ClosedForm.
Context {Entity : Type}.
Implicit Types (d : Document Entity) (t : Labels).

(** The document [_updateCitationLabels] leaves behind when the tables are
    [t], and the way the call then ends. *)
Definition written (entityDb : string → option Entity) t d : Document Entity :=
  let xrefs := findAll sel_xref_bibr d in
  let refs := findAll sel_ref_list_ref d in
  apply_at (set_ref_label t) refs
    (apply_at (set_entity entityDb d) refs
       (apply_at (set_xref_label t) xrefs d)).

Definition notified d : Outcome :=
  match find sel_ref_list d with
  | None => TypeError
  | Some refList =>
      Flow (list_to_set (findAll sel_xref_bibr d)
            ∪ list_to_set (findAll sel_ref_list_ref d) ∪ {[refList]})
  end.

End ClosedForm.

(** ** The rest of the manager *)

Section ReferenceManagerRest.
Context {Entity : Type}.
Variable entityDb : string → option Entity.
Variable sort : (string → string → Z) → list string → list string.
Implicit Types (d : Document Entity) (s : EditorSession Entity).

(** [getReferenceIds] (lines 41-45): the [rid] attribute of every entry of
    the reference list, [undefined] for an entry without one. *)
Definition getReferenceIds d : list (option string) :=
  (λ ref, getAttribute d ref "rid") <$> findAll sel_ref_list_ref d.

(** [getAvailableResources] (lines 70-72). *)
Definition getAvailableResources d : Document Entity * list string :=
  getBibliography entityDb sort d.

(** A run of transactions, each with the document it leaves and the
    operations it reports. *)
Definition commit_all s (txs : list (Document Entity * list Op))
  : EditorSession Entity :=
  foldl (λ s tx, commit s tx.1 tx.2) s txs.

(** An identifier as the data model has it: a non-empty word without a
    space, and one that the tables of [_updateCitationLabels] treat as any
    other key. *)
Definition identifier (w : string) : Prop :=
  w ≠ "" ∧ (" "%char ∉ list_ascii_of_string w) ∧ plain w.

(** Marker [xref] lists the identifiers [ids]: there is at least one, and
    the marker's [rid] attribute is the identifiers joined by single
    spaces. *)
Definition lists d (xref : string) (ids : list string) : Prop :=
  ids ≠ [] ∧ Forall identifier ids
  ∧ getAttribute d xref "rid" = Some (String.concat " " ids).

#[global] Instance identifier_dec (w : string) : Decision (identifier w).
Proof. unfold identifier. apply _. Defined.

#[global] Instance lists_dec d xref ids : Decision (lists d xref ids).
Proof. unfold lists. apply _. Defined.

End ReferenceManagerRest.

Module MoreSamples.

(** A marker in a document without a reference list. *)
Definition doc_no_ref_list : Document string :=
  Sample.document
    [ ("body", Sample.element "body" None []);
      ("x1", Sample.xref "r1") ].

(** [doc_P2] after a first run, with a third marker appended. *)
Definition doc_P2_more : Document string :=
  Sample.document
    [ ("body", Sample.element "body" None []);
      ("x1", Sample.xref "B A");
      ("x2", Sample.xref "A C");
      ("x3", Sample.xref "D B");
      ("ref-list-1", Sample.element "ref-list" None []);
      ("A", Sample.ref "entity-1");
      ("B", Sample.ref "entity-2");
      ("C", Sample.ref "entity-3");
      ("D", Sample.ref "entity-4") ].

(** A marker that cites an entry called [hasOwnProperty] before [r1]. *)
Definition doc_hasOwnProperty : Document string :=
  Sample.document
    [ ("x1", Sample.xref "hasOwnProperty r1");
      ("ref-list-1", Sample.element "ref-list" None []);
      ("r1", Sample.ref "entity-1") ].

(** A marker that cites an entry called [__proto__] twice before [r1]. *)
Definition doc_proto : Document string :=
  Sample.document
    [ ("x1", Sample.xref "__proto__ __proto__ r1");
      ("ref-list-1", Sample.element "ref-list" None []);
      ("r1", Sample.ref "entity-1") ].

(** A reference list with an entry called [constructor] that no marker
    cites. *)
Definition doc_constructor : Document string :=
  Sample.document
    [ ("x1", Sample.xref "r1");
      ("ref-list-1", Sample.element "ref-list" None []);
      ("r1", Sample.ref "entity-1");
      ("constructor", Sample.ref "entity-2") ].

(** A batch with one operation that needs an update between two that do
    not. *)
Definition ops_mixed : list Op :=
  [ op_set ["x1"; "attributes"; "style"] (Some "bold") None;
    op_set ["x2"; "attributes"; "rid"] (Some "A C") (Some "A");
    op_other ].

End MoreSamples.

(** ** The tables of lines 150-165 *)

Section Labels.
Context (getLabel : LabelArg → string).
Implicit Types (t : Labels) (seen rids : list string).

Lemma labels_inv_initial : labels_inv getLabel initial_labels [].
Proof.
  split; simpl.
  - intros id. rewrite lookup_empty, elem_of_nil. split; [intros [? ?]; done | done].
  - by rewrite map_size_empty.
  - intros pre id post E. by destruct pre.
  - intros n. split; [intros [id H]; by rewrite lookup_empty in H | lia].
  - intros a b n H. by rewrite lookup_empty in H.
  - intros id. by rewrite !lookup_empty.
Qed.

Lemma snoc_eq_split {A} (l pre post : list A) (x y : A) :
  l ++ [x] = pre ++ y :: post →
  (post = [] ∧ pre = l ∧ y = x) ∨ (∃ post', post = post' ++ [x] ∧ l = pre ++ y :: post').
Proof.
  destruct post as [|z post _] using rev_ind.
  - intros E. apply app_inj_tail in E as [-> ->]. by left.
  - intros E. right. exists post.
    change (l ++ [x] = pre ++ (y :: post) ++ [z]) in E.
    rewrite app_assoc in E. apply app_inj_tail in E as [-> ->]. done.
Qed.

Lemma dom_size_seen t seen :
  labels_inv getLabel t seen → size (order t) = size (list_to_set seen : gset string).
Proof.
  intros I. rewrite <- (size_dom (D := gset string)). f_equal.
  apply set_eq. intros id.
  rewrite elem_of_dom, elem_of_list_to_set. apply I.
Qed.

Lemma plain_visit_rid_inv t seen id t' n :
  labels_inv getLabel t seen → plain_visit_rid getLabel t id = (t', n) →
  labels_inv getLabel t' (seen ++ [id]) ∧ order t ⊆ order t'
  ∧ xrefLabels t' = xrefLabels t ∧ order t' !! id = Some n.
Proof.
  intros I. pose proof (dom_size_seen _ _ I) as Hsize.
  destruct I as [Idom Inext Irank Irange Iinj Iref]. unfold plain_visit_rid.
  destruct (order t !! id) as [m|] eqn:E; intros [= <- <-].
  - assert (id ∈ seen) as Hin by (apply Idom; eauto).
    split_and!; [constructor| | |]; try done.
    + intros id'. rewrite elem_of_app, list_elem_of_singleton, Idom.
      split; [tauto|]. intros [H| ->]; done.
    + intros pre id' post Hs Hpre.
      apply snoc_eq_split in Hs as [(-> & -> & ->)|(post' & -> & Hs)]; [done|].
      by eapply Irank.
  - assert (id ∉ seen) as Hnin.
    { intros H%Idom. rewrite E in H. by destruct H. }
    assert (∀ c, order t !! c = Some (next_pos t) → False) as Hfresh.
    { intros c Hc. assert (1 ≤ next_pos t < next_pos t) by (apply (proj1 (Irange _)); eauto). lia. }
    split_and!; [constructor| | |]; simpl.
    + intros id'. rewrite elem_of_app, list_elem_of_singleton, <- Idom.
      destruct (decide (id = id')) as [->|Hne].
      * rewrite lookup_insert_eq. split; eauto.
      * rewrite lookup_insert_ne by done. split; [tauto|]. intros [H| ->]; done.
    + rewrite map_size_insert_None by done. by f_equal.
    + intros pre id' post Hs Hpre.
      apply snoc_eq_split in Hs as [(-> & -> & ->)|(post' & -> & Hs)].
      * rewrite lookup_insert_eq. f_equal. rewrite Inext. by f_equal.
      * rewrite lookup_insert_ne.
        -- by eapply Irank.
        -- intros ->. apply Hnin. rewrite Hs, elem_of_app, elem_of_cons. auto.
    + intros n. split.
      * intros [id' H]. destruct (decide (id = id')) as [->|Hne].
        -- rewrite lookup_insert_eq in H. injection H as <-. lia.
        -- rewrite lookup_insert_ne in H by done.
           assert (1 ≤ n < next_pos t) by (apply Irange; eauto). lia.
      * intros [H1 H2]. destruct (decide (n = next_pos t)) as [->|Hne].
        -- exists id. by rewrite lookup_insert_eq.
        -- destruct (proj2 (Irange n)) as [id' H]; [lia|].
           exists id'. rewrite lookup_insert_ne; [done|]. intros ->. congruence.
    + intros a b n Ha Hb.
      destruct (decide (id = a)) as [Ea|Hna], (decide (id = b)) as [Eb|Hnb];
        try subst a; try subst b; try done.
      * rewrite lookup_insert_eq in Ha. rewrite lookup_insert_ne in Hb by done.
        injection Ha as <-. by apply Hfresh in Hb.
      * rewrite lookup_insert_eq in Hb. rewrite lookup_insert_ne in Ha by done.
        injection Hb as <-. by apply Hfresh in Ha.
      * rewrite lookup_insert_ne in Ha, Hb by done. by eapply Iinj.
    + intros id'. destruct (decide (id = id')) as [->|Hne].
      * by rewrite !lookup_insert_eq.
      * rewrite !lookup_insert_ne by done. apply Iref.
    + by apply insert_subseteq.
    + done.
    + by rewrite lookup_insert_eq.
Qed.

Lemma labels_inv_xrefLabels t seen m :
  labels_inv getLabel t seen →
  labels_inv getLabel (mkLabels (next_pos t) (order t) (refLabels t) m) seen.
Proof. intros [? ? ? ? ? ?]. by constructor. Qed.

Lemma read_Some {A} (m : gmap string A) k a : m !! k = Some a → JS.read m k = JS.Own a.
Proof. intros H. unfold JS.read. by rewrite H. Qed.

Lemma read_None {A} (m : gmap string A) k :
  m !! k = None → k ∉ JS.prototype_members → JS.read m k = JS.Undefined.
Proof.
  intros H Hk. unfold JS.read. rewrite H. by rewrite bool_decide_eq_false_2.
Qed.


Lemma assign_insert {A} (m : gmap string A) k a :
  k ≠ "__proto__" → JS.assign m k a = <[k := a]> m.
Proof. intros H. unfold JS.assign. by rewrite bool_decide_eq_false_2. Qed.

Lemma lookup_assign {A} (m : gmap string A) k a j :
  JS.assign m k a !! j
  = if decide (k = j ∧ k ≠ "__proto__") then Some a else m !! j.
Proof.
  unfold JS.assign. destruct (decide (k = "__proto__")) as [->|Hk].
  - rewrite bool_decide_eq_true_2 by done.
    by rewrite decide_False by (intros [_ ?]; done).
  - rewrite bool_decide_eq_false_2 by done. rewrite lookup_insert.
    destruct (decide (k = j)) as [->|?].
    + by rewrite decide_True.
    + by rewrite decide_False by (intros [? _]; done).
Qed.

(** For a plain identifier the body of the loop is [plain_visit_rid]. *)
Lemma visit_rid_plain t id :
  plain id → order t !! "hasOwnProperty" = None →
  visit_rid getLabel t id
  = Some ((plain_visit_rid getLabel t id).1,
          JS.Own (plain_visit_rid getLabel t id).2).
Proof.
  intros [_ Hproto] Hown. unfold visit_rid, plain_visit_rid, JS.hasOwnProperty.
  rewrite Hown. destruct (order t !! id) as [n|] eqn:E.
  - rewrite bool_decide_eq_true_2 by eauto. simpl. by rewrite (read_Some _ _ _ E).
  - rewrite bool_decide_eq_false_2 by (intros [? ?]; done). simpl.
    rewrite !assign_insert by done.
    by rewrite (read_Some _ _ (next_pos t)) by apply lookup_insert_eq.
Qed.

Lemma labels_inv_no_hasOwnProperty t seen :
  labels_inv getLabel t seen → Forall plain seen →
  order t !! "hasOwnProperty" = None.
Proof.
  intros I Hseen. apply eq_None_not_Some. rewrite (inv_dom _ _ _ I).
  intros Hin. rewrite Forall_forall in Hseen. by destruct (Hseen _ Hin).
Qed.

Lemma visit_rid_inv t seen id :
  labels_inv getLabel t seen → Forall plain seen → plain id →
  ∃ t' n, visit_rid getLabel t id = Some (t', JS.Own n)
    ∧ labels_inv getLabel t' (seen ++ [id]) ∧ order t ⊆ order t'
    ∧ xrefLabels t' = xrefLabels t ∧ order t' !! id = Some n.
Proof.
  intros I Hseen Hid.
  rewrite (visit_rid_plain t id Hid (labels_inv_no_hasOwnProperty _ _ I Hseen)).
  destruct (plain_visit_rid getLabel t id) as [t' n] eqn:E.
  exists t', n. split; [done|]. by eapply plain_visit_rid_inv.
Qed.

Lemma forEach_rid_inv rids : ∀ t seen numbers,
  labels_inv getLabel t seen → Forall plain seen → Forall plain rids →
  ∃ t' ns, forEach_rid getLabel rids t numbers
           = Some (t', numbers ++ (JS.Own <$> ns))
    ∧ labels_inv getLabel t' (seen ++ rids) ∧ order t ⊆ order t'
    ∧ xrefLabels t' = xrefLabels t
    ∧ Forall2 (λ id n, order t' !! id = Some n) rids ns.
Proof.
  induction rids as [|id rest IH]; intros t seen numbers I Hseen Hrids; simpl.
  - exists t, []. simpl. rewrite !app_nil_r. split_and!; done.
  - apply Forall_cons in Hrids as [Hid Hrest].
    destruct (visit_rid_inv _ _ _ I Hseen Hid) as (t1 & n & -> & I1 & Hsub1 & Hx1 & Hn).
    destruct (IH t1 (seen ++ [id]) (numbers ++ [JS.Own n]) I1) as
      (t' & ns & -> & I2 & Hsub2 & Hx2 & Hns); [|done|].
    { apply Forall_app. split; [done|]. by apply Forall_singleton. }
    exists t', (n :: ns). split_and!.
    + simpl. by rewrite <- app_assoc.
    + by rewrite <- app_assoc in I2.
    + by etrans.
    + congruence.
    + constructor; [|done]. by eapply lookup_weaken.
Qed.

Lemma forEach_xref_inv {Entity} (d : Document Entity) xrefs : ∀ t seen,
  labels_inv getLabel t seen →
  Forall (λ x, is_Some (getAttribute d x "rid")) xrefs →
  Forall plain seen → Forall plain (all_rids d xrefs) →
  ∃ t', forEach_xref getLabel d xrefs t = Some t'
    ∧ labels_inv getLabel t' (seen ++ all_rids d xrefs)
    ∧ order t ⊆ order t'
    ∧ (∀ x, x ∉ xrefs → xrefLabels t' !! x = xrefLabels t !! x)
    ∧ (∀ x, x ∈ xrefs →
         ∃ ns, Forall2 (λ id n, order t' !! id = Some n) (rids_of d x) ns
               ∧ (x ≠ "__proto__" →
                  xrefLabels t' !! x
                  = Some (getLabel (Positions (JS.Own <$> ns))))).
Proof.
  induction xrefs as [|x rest IH]; intros t seen I Hattr Hseen Hplain; simpl.
  - exists t. rewrite app_nil_r. split_and!; try done.
    intros x Hx. by apply elem_of_nil in Hx.
  - apply Forall_cons in Hattr as [[rid Hrid] Hattr]. rewrite Hrid.
    assert (rids_of d x = JS.split " " rid) as Hrids
      by (unfold rids_of; by rewrite Hrid).
    unfold all_rids in Hplain. simpl in Hplain. rewrite Hrids in Hplain.
    apply Forall_app in Hplain as [Hx Hrest].
    destruct (forEach_rid_inv (JS.split " " rid) t seen [] I Hseen Hx)
      as (t1 & ns & -> & I1 & Hsub1 & Hx1 & Hns). simpl.
    destruct (IH _ (seen ++ JS.split " " rid)
                (labels_inv_xrefLabels _ _
                   (JS.assign (xrefLabels t1) x
                      (getLabel (Positions (JS.Own <$> ns)))) I1) Hattr)
      as (t' & -> & I2 & Hsub2 & Hframe & Hlab);
      [by apply Forall_app|done|].
    simpl in *. exists t'. split_and!; try done.
    + unfold all_rids. simpl. rewrite Hrids.
      by rewrite <- app_assoc in I2.
    + by etrans.
    + intros x' Hx'. apply not_elem_of_cons in Hx' as [Hne Hx'].
      rewrite Hframe by done. rewrite lookup_assign.
      rewrite decide_False by (intros [? _]; done). by rewrite Hx1.
    + intros x' Hx'.
      destruct (decide (x' ∈ rest)) as [Hin|Hnin]; [by apply Hlab|].
      apply elem_of_cons in Hx' as [->|?]; [|done].
      exists ns. split.
      * rewrite Hrids. eapply Forall2_impl; [done|]. simpl.
        intros id n Hn. by eapply lookup_weaken.
      * intros Hproto. rewrite Hframe by done. rewrite lookup_assign.
        by rewrite decide_True.
Qed.

Lemma forEach_xref_attributes {Entity} (d d' : Document Entity) xrefs : ∀ t,
  (∀ x, getAttribute d' x "rid" = getAttribute d x "rid") →
  forEach_xref getLabel d' xrefs t = forEach_xref getLabel d xrefs t.
Proof.
  induction xrefs as [|x rest IH]; intros t H; simpl; [done|].
  rewrite H. destruct (getAttribute d x "rid"); [|done].
  destruct (forEach_rid _ _ _ _) as [[t' numbers]|]; [|done]. by apply IH.
Qed.

(** *** When the loop throws *)

Lemma visit_rid_None t id :
  visit_rid getLabel t id = None ↔ is_Some (order t !! "hasOwnProperty").
Proof.
  unfold visit_rid, JS.hasOwnProperty.
  destruct (order t !! "hasOwnProperty") as [n|]; [by eauto|].
  destruct (bool_decide _); split; try done; by intros [? ?].
Qed.

Lemma visit_rid_Some t id t' v :
  visit_rid getLabel t id = Some (t', v) →
  order t !! "hasOwnProperty" = None
  ∧ xrefLabels t' = xrefLabels t
  ∧ (is_Some (order t' !! "hasOwnProperty") ↔ id = "hasOwnProperty").
Proof.
  unfold visit_rid, JS.hasOwnProperty.
  destruct (order t !! "hasOwnProperty") as [n|] eqn:E; [done|].
  destruct (bool_decide (is_Some (order t !! id))) eqn:Eid.
  - intros [= <- <-]. apply bool_decide_eq_true in Eid. split_and!; try done.
    rewrite E. split; [by intros [? ?]|]. intros ->. rewrite E in Eid.
    by destruct Eid.
  - intros [= <- <-]. simpl. split_and!; try done.
    rewrite lookup_assign. destruct (decide (id = "hasOwnProperty")) as [->|Hne].
    + rewrite decide_True by done. split; eauto.
    + rewrite decide_False by (intros [? _]; done). rewrite E.
      split; [by intros [? ?]|done].
Qed.

Lemma throws_true ids : throws true ids = bool_decide (ids ≠ []).
Proof. by destruct ids. Qed.

Lemma throws_app has l1 l2 :
  throws has (l1 ++ l2)
  = throws has l1
    || throws (has || bool_decide ("hasOwnProperty" ∈ l1)) l2.
Proof.
  revert has. induction l1 as [|id l1 IH]; intros has.
  - rewrite bool_decide_eq_false_2 by apply not_elem_of_nil.
    simpl. by rewrite orb_false_r.
  - cbn [app throws]. destruct has; [done|]. cbn [orb]. rewrite IH.
    f_equal. f_equal.
    destruct (decide (id = "hasOwnProperty")) as [->|Hne].
    + rewrite (bool_decide_eq_true_2 ("hasOwnProperty" = _)) by done.
      by rewrite (bool_decide_eq_true_2 (_ ∈ _ :: _)) by (apply elem_of_cons; auto).
    + rewrite (bool_decide_eq_false_2 (id = _)) by done. cbn [orb].
      apply bool_decide_ext. rewrite elem_of_cons.
      split; [auto|]. intros [?|?]; done.
Qed.

Lemma throws_false ids :
  throws false ids = true ↔ hasOwnProperty_then_more ids.
Proof.
  unfold hasOwnProperty_then_more. induction ids as [|id ids IH]; simpl.
  - split; [done|]. intros (pre & post & E & _). by destruct pre.
  - destruct (decide (id = "hasOwnProperty")) as [->|Hne].
    + rewrite bool_decide_eq_true_2 by done. rewrite throws_true.
      rewrite bool_decide_eq_true. split.
      * intros H. by exists [], ids.
      * intros (pre & post & E & Hpost) ->.
        destruct pre as [|? pre]; simpl in E; [injection E as <-; done|].
        injection E as _ E. by destruct pre.
    + rewrite bool_decide_eq_false_2 by done. rewrite IH. split.
      * intros (pre & post & -> & Hpost). by exists (id :: pre), post.
      * intros (pre & post & E & Hpost).
        destruct pre as [|? pre]; simpl in E; injection E as E1 E2; [done|].
        by exists pre, post.
Qed.

Lemma forEach_rid_throws rids : ∀ t numbers,
  match forEach_rid getLabel rids t numbers with
  | None => throws (has_hasOwnProperty t) rids = true
  | Some (t', _) =>
      throws (has_hasOwnProperty t) rids = false
      ∧ xrefLabels t' = xrefLabels t
      ∧ has_hasOwnProperty t'
        = has_hasOwnProperty t || bool_decide ("hasOwnProperty" ∈ rids)
  end.
Proof.
  induction rids as [|id rest IH]; intros t numbers.
  - rewrite bool_decide_eq_false_2 by apply not_elem_of_nil.
    simpl. by rewrite orb_false_r.
  - cbn [forEach_rid throws].
    destruct (visit_rid getLabel t id) as [[t1 v]|] eqn:E.
    + apply visit_rid_Some in E as (Hnone & Hx & Hhas).
      assert (has_hasOwnProperty t = false) as ->.
      { unfold has_hasOwnProperty. rewrite Hnone.
        apply bool_decide_eq_false_2. by intros [? ?]. }
      assert (has_hasOwnProperty t1 = bool_decide (id = "hasOwnProperty")) as Ht1.
      { unfold has_hasOwnProperty. by apply bool_decide_ext. }
      specialize (IH t1 (numbers ++ [v])). rewrite Ht1 in IH. simpl.
      destruct (forEach_rid getLabel rest t1 (numbers ++ [v])) as [[t' ns]|];
        [|done].
      destruct IH as (-> & -> & ->). split_and!; try done.
      destruct (decide (id = "hasOwnProperty")) as [->|Hne].
      * rewrite (bool_decide_eq_true_2 ("hasOwnProperty" = _)) by done.
        by rewrite (bool_decide_eq_true_2 (_ ∈ _ :: _)) by (apply elem_of_cons; auto).
      * rewrite (bool_decide_eq_false_2 (id = _)) by done. cbn [orb].
        apply bool_decide_ext. rewrite elem_of_cons.
      split; [auto|]. intros [?|?]; done.
    + apply visit_rid_None in E. unfold has_hasOwnProperty.
      by rewrite bool_decide_eq_true_2.
Qed.

Lemma forEach_xref_throws {Entity} (d : Document Entity) xrefs : ∀ t,
  match forEach_xref getLabel d xrefs t with
  | None =>
      Exists (λ x, getAttribute d x "rid" = None) xrefs
      ∨ throws (has_hasOwnProperty t) (all_rids d xrefs) = true
  | Some t' =>
      Forall (λ x, is_Some (getAttribute d x "rid")) xrefs
      ∧ throws (has_hasOwnProperty t) (all_rids d xrefs) = false
      ∧ (xrefLabels t !! "__proto__" = None →
         xrefLabels t' !! "__proto__" = None)
  end.
Proof.
  induction xrefs as [|x rest IH]; intros t; simpl; [done|].
  destruct (getAttribute d x "rid") as [rid|] eqn:Hrid.
  - assert (rids_of d x = JS.split " " rid) as Hrids
      by (unfold rids_of; by rewrite Hrid).
    unfold all_rids. simpl. rewrite Hrids, throws_app.
    pose proof (forEach_rid_throws (JS.split " " rid) t []) as H1.
    destruct (forEach_rid getLabel (JS.split " " rid) t []) as [[t1 ns]|].
    + destruct H1 as (-> & Hx & Hhas). simpl.
      match goal with |- context [forEach_xref getLabel d rest ?t2] =>
        specialize (IH t2); assert (has_hasOwnProperty t2 = has_hasOwnProperty t1)
          as Heq by done end.
      rewrite Heq, Hhas in IH.
      match goal with |- context [forEach_xref getLabel d rest ?t2] =>
        destruct (forEach_xref getLabel d rest t2) as [t'|] end.
      * destruct IH as (HF & Hth & Hproto). split_and!; try done.
        -- apply Forall_cons. split; [by eauto|done].
        -- intros Hp. apply Hproto. simpl. rewrite lookup_assign.
           rewrite decide_False by (intros [-> ?]; done). by rewrite Hx.
      * destruct IH as [HE|Hth]; [left; by apply Exists_cons_tl|by right].
    + right. by rewrite H1.
  - left. by apply Exists_cons_hd.
Qed.

End Labels.

(** ** Writes to node state *)

Section StateWrites.
Context {Entity : Type}.
Implicit Types (d : Document Entity) (n : Node Entity)
  (F G : string → NodeState Entity → NodeState Entity).

Lemma get_write_state f d id k :
  get (write_state f d id) k
  = if decide (id = k) then update_state f <$> get d k else get d k.
Proof.
  unfold get, write_state. simpl. rewrite lookup_alter.
  by destruct (decide (id = k)) as [->|?].
Qed.

Lemma same_skeleton_refl d : same_skeleton d d.
Proof. by split. Qed.

Lemma same_skeleton_trans d1 d2 d3 :
  same_skeleton d1 d2 → same_skeleton d2 d3 → same_skeleton d1 d3.
Proof.
  intros [S1 N1] [S2 N2]. split; [congruence|].
  intros k. by rewrite N2, N1.
Qed.

Lemma same_skeleton_sym d1 d2 : same_skeleton d1 d2 → same_skeleton d2 d1.
Proof. intros [S N]. split; [done|]. intros k. by rewrite N. Qed.

Lemma write_state_skeleton f d id : same_skeleton d (write_state f d id).
Proof.
  split; [done|]. intros k. rewrite get_write_state.
  destruct (decide (id = k)); [|done]. by destruct (get d k).
Qed.

Lemma apply_at_skeleton F l : ∀ d, same_skeleton d (apply_at F l d).
Proof.
  induction l as [|id l IH]; intros d; simpl; [apply same_skeleton_refl|].
  eapply same_skeleton_trans; [apply write_state_skeleton|apply IH].
Qed.

Lemma same_skeleton_getAttribute d d' k name :
  same_skeleton d d' → getAttribute d' k name = getAttribute d k name.
Proof.
  intros [_ N]. unfold getAttribute. specialize (N k).
  destruct (get d' k), (get d k); simpl in *; try done.
  injection N as _ _ ->. done.
Qed.

Lemma same_skeleton_has_type d d' o ty :
  same_skeleton d d' → has_type d' o ty = has_type d o ty.
Proof.
  intros [_ N]. unfold has_type. destruct o as [k|]; simpl; [|done].
  specialize (N k). destruct (get d' k), (get d k); simpl in *; try done.
  injection N as -> _ _. done.
Qed.

Lemma same_skeleton_parent d d' k :
  same_skeleton d d' → get d' k ≫= parent = get d k ≫= parent.
Proof.
  intros [_ N]. specialize (N k).
  destruct (get d' k), (get d k); simpl in *; try done.
  injection N as _ -> _. done.
Qed.

Lemma same_skeleton_matches sel d d' k :
  same_skeleton d d' → matches sel d' k = matches sel d k.
Proof.
  intros H. destruct sel; simpl.
  - by apply same_skeleton_has_type.
  - rewrite (same_skeleton_parent _ _ _ H).
    by rewrite !(same_skeleton_has_type _ _ _ _ H).
  - rewrite (same_skeleton_getAttribute _ _ _ _ H).
    by rewrite (same_skeleton_has_type _ _ _ _ H).
Qed.

Lemma same_skeleton_findAll sel d d' :
  same_skeleton d d' → findAll sel d' = findAll sel d.
Proof.
  intros H. unfold findAll. rewrite (proj1 H).
  apply List.filter_ext. intros k. by apply same_skeleton_matches.
Qed.

Lemma same_skeleton_find sel d d' :
  same_skeleton d d' → find sel d' = find sel d.
Proof. intros H. unfold find. by rewrite (same_skeleton_findAll _ _ _ H). Qed.

Lemma elem_of_findAll sel d k :
  k ∈ findAll sel d ↔ k ∈ sequence d ∧ matches sel d k = true.
Proof. unfold findAll. rewrite !list_elem_of_In. apply List.filter_In. Qed.

(** A node cannot be both a marker and an entry of the reference list. *)
Lemma xref_not_ref d k :
  k ∈ findAll sel_xref_bibr d → k ∉ findAll sel_ref_list_ref d.
Proof.
  rewrite !elem_of_findAll. intros [_ H1] [_ H2]. simpl in *.
  apply andb_true_iff in H1 as [H1 _]. apply andb_true_iff in H2 as [H2 _].
  unfold has_type in *. simpl in *. destruct (get d k); [|done].
  apply bool_decide_eq_true in H1, H2. congruence.
Qed.

(** The node at [k] after a loop of writes: the write happened if and only
    if [k] is in the list. *)
Lemma get_apply_at F l k :
  (∀ s, F k (F k s) = F k s) →
  ∀ d, get (apply_at F l d) k
       = if decide (k ∈ l) then update_state (F k) <$> get d k else get d k.
Proof.
  intros Hidem. induction l as [|id l IH]; intros d.
  - by rewrite decide_False by apply not_elem_of_nil.
  - change (apply_at F (id :: l) d) with (apply_at F l (write_state (F id) d id)).
    rewrite IH, get_write_state.
    destruct (decide (k ∈ l)) as [Hl|Hl], (decide (id = k)) as [->|Hne].
    + rewrite decide_True by (apply elem_of_cons; auto).
      destruct (get d k) as [n|]; [|done]. simpl. f_equal.
      unfold update_state. simpl. by rewrite Hidem.
    + by rewrite decide_True by (apply elem_of_cons; auto).
    + by rewrite decide_True by (apply elem_of_cons; auto).
    + rewrite decide_False; [done|]. rewrite elem_of_cons. intros [E|E]; congruence.
Qed.

Lemma apply_at_ext F G l :
  (∀ k s, F k s = G k s) → ∀ d, apply_at F l d = apply_at G l d.
Proof.
  intros H. induction l as [|id l IH]; intros d; simpl; [done|].
  rewrite IH.
  assert (write_state (F id) d id = write_state (G id) d id) as ->; [|done].
  unfold write_state. f_equal.
  apply map_eq. intros k. rewrite !lookup_alter.
  destruct (decide (id = k)) as [->|?]; [|done].
  destruct (nodes d !! k) as [n|]; [|done]. simpl. f_equal.
  unfold update_state. by rewrite H.
Qed.

Lemma document_eq d d' :
  sequence d = sequence d' → (∀ k, get d k = get d' k) → d = d'.
Proof.
  destruct d as [m s], d' as [m' s']. simpl. intros -> H. f_equal.
  by apply map_eq.
Qed.

(** The order in which the nodes are visited does not matter. *)
Lemma apply_at_same_elements F l l' d :
  (∀ k s, F k (F k s) = F k s) → (∀ k, k ∈ l ↔ k ∈ l') →
  apply_at F l d = apply_at F l' d.
Proof.
  intros Hidem Hl. apply document_eq.
  - transitivity (sequence d).
    + apply (apply_at_skeleton F l d).
    + symmetry. apply (apply_at_skeleton F l' d).
  - intros k. rewrite !get_apply_at by done.
    destruct (decide (k ∈ l)) as [H|H], (decide (k ∈ l')) as [H'|H']; try done;
      exfalso; [apply H', Hl, H|apply H, Hl, H'].
Qed.

End StateWrites.

(** ** [_updateCitationLabels] as three loops of writes *)

Section Recompute.
Context {Entity : Type}.
Context (getLabel : LabelArg → string) (entityDb : string → option Entity).
Context (sort : (string → string → Z) → list string → list string).
Implicit Types (d : Document Entity) (t : Labels).

Lemma foldl_write_xref t l : ∀ acc : Document Entity * gset string,
  foldl (write_xref t) acc l
  = (apply_at (set_xref_label t) l acc.1, acc.2 ∪ list_to_set l).
Proof.
  induction l as [|x l IH]; intros [d u]; simpl.
  - by rewrite (right_id_L ∅ (∪)).
  - rewrite IH. simpl. f_equal. by rewrite (assoc_L (∪)).
Qed.

Lemma foldl_write_ref t l : ∀ acc : Document Entity * gset string,
  foldl (write_ref t) acc l
  = (apply_at (set_ref_label t) l acc.1, acc.2 ∪ list_to_set l).
Proof.
  induction l as [|x l IH]; intros [d u]; simpl.
  - by rewrite (right_id_L ∅ (∪)).
  - rewrite IH. simpl. f_equal. by rewrite (assoc_L (∪)).
Qed.

Lemma foldl_resolve_entity d0 l : ∀ d,
  same_skeleton d0 d →
  foldl (resolve_entity entityDb) d l = apply_at (set_entity entityDb d0) l d.
Proof.
  induction l as [|x l IH]; intros d H; simpl; [done|].
  assert (resolve_entity entityDb d x = write_state (set_entity entityDb d0 x) d x)
    as ->.
  { unfold resolve_entity, set_entity.
    by rewrite (same_skeleton_getAttribute _ _ _ _ H). }
  apply IH. eapply same_skeleton_trans; [done|apply write_state_skeleton].
Qed.

Lemma set_xref_label_idem t k (s : NodeState Entity) :
  set_xref_label t k (set_xref_label t k s) = set_xref_label t k s.
Proof. done. Qed.

Lemma set_ref_label_idem t k (s : NodeState Entity) :
  set_ref_label t k (set_ref_label t k s) = set_ref_label t k s.
Proof. done. Qed.

Lemma set_entity_idem d k (s : NodeState Entity) :
  set_entity entityDb d k (set_entity entityDb d k s) = set_entity entityDb d k s.
Proof.
  unfold set_entity. simpl. destruct (entity s); [done|].
  by destruct (getAttribute d k "rid" ≫= entityDb).
Qed.

Lemma written_skeleton t d : same_skeleton d (written entityDb t d).
Proof.
  unfold written.
  eapply same_skeleton_trans; [|apply apply_at_skeleton].
  eapply same_skeleton_trans; [|apply apply_at_skeleton].
  apply apply_at_skeleton.
Qed.

Lemma elem_of_sort cmp l k :
  (∀ cmp l, sort cmp l ≡ₚ l) → k ∈ sort cmp l ↔ k ∈ l.
Proof. intros H. by rewrite (H cmp l). Qed.

Lemma _updateCitationLabels_Some d t :
  (∀ cmp l, sort cmp l ≡ₚ l) →
  findAll sel_xref_bibr d ≠ [] →
  forEach_xref getLabel d (findAll sel_xref_bibr d) initial_labels = Some t →
  _updateCitationLabels getLabel entityDb sort d
  = (written entityDb t d, notified d).
Proof.
  intros Hsort Hne Ht. unfold _updateCitationLabels.
  rewrite bool_decide_eq_false_2
    by (destruct (findAll sel_xref_bibr d); [done|simpl; lia]).
  rewrite Ht, foldl_write_xref. simpl.
  unfold getBibliography. rewrite foldl_write_ref. simpl.
  pose proof (apply_at_skeleton (set_xref_label t) (findAll sel_xref_bibr d) d) as H1.
  rewrite (same_skeleton_findAll _ _ _ H1).
  rewrite (foldl_resolve_entity _ _ _ (same_skeleton_refl _)).
  set (refs := findAll sel_ref_list_ref d).
  set (d1 := apply_at (set_xref_label t) (findAll sel_xref_bibr d) d) in *.
  assert (apply_at (set_entity entityDb d1) refs d1
          = apply_at (set_entity entityDb d) refs d1) as ->.
  { apply apply_at_ext. intros k s. unfold set_entity.
    by rewrite (same_skeleton_getAttribute _ _ _ _ H1). }
  set (d2 := apply_at (set_entity entityDb d) refs d1).
  rewrite (apply_at_same_elements _ (sort (compare_pos d2) refs) refs)
    by (try apply set_ref_label_idem; intros k; by apply elem_of_sort).
  unfold written, notified. fold refs d1 d2.
  destruct (find sel_ref_list d) as [rl|]; [|done].
  do 3 f_equal. rewrite (left_id_L ∅ (∪)). f_equal.
  apply set_eq. intros k. rewrite !elem_of_list_to_set. by apply elem_of_sort.
Qed.

Lemma _updateCitationLabels_Skipped d :
  findAll sel_xref_bibr d = [] →
  _updateCitationLabels getLabel entityDb sort d = (d, Skipped).
Proof. intros H. unfold _updateCitationLabels. by rewrite H. Qed.

Lemma findAll_get sel d k : k ∈ findAll sel d → is_Some (get d k).
Proof.
  rewrite elem_of_findAll. intros [_ H].
  assert (∀ ty, has_type d (Some k) ty = true → is_Some (get d k)) as Hty.
  { unfold has_type. simpl. intros ty. destruct (get d k); [eauto|done]. }
  destruct sel; simpl in H; [by eapply Hty| |];
    apply andb_true_iff in H as [H _]; by eapply Hty.
Qed.

(** The state of a marker and of an entry in the document left behind. *)
Lemma written_xref t d x :
  x ∈ findAll sel_xref_bibr d →
  state_label (written entityDb t d) x = JS.read (xrefLabels t) x.
Proof.
  intros Hx. unfold state_label, written.
  pose proof (xref_not_ref _ _ Hx) as Hnr.
  rewrite !get_apply_at
    by first [apply set_ref_label_idem|apply set_entity_idem|apply set_xref_label_idem].
  rewrite !decide_False by done. rewrite decide_True by done.
  destruct (findAll_get _ _ _ Hx) as [n ->]. done.
Qed.

Lemma written_ref t d r :
  r ∈ findAll sel_ref_list_ref d →
  state_label (written entityDb t d) r = JS.or_empty (JS.read (refLabels t) r)
  ∧ state_pos (written entityDb t d) r = JS.read (order t) r.
Proof.
  intros Hr. unfold state_label, state_pos, written.
  rewrite (get_apply_at (set_ref_label t)) by apply set_ref_label_idem.
  rewrite decide_True by done.
  match goal with |- context [get ?d0 r] =>
    assert (is_Some (get d0 r)) as [n ->] end; [|done].
  destruct (findAll_get _ _ _ Hr) as [n Hn].
  pose proof (apply_at_skeleton (set_xref_label t) (findAll sel_xref_bibr d) d) as [_ H1].
  match goal with |- context [apply_at (set_entity ?e ?dd) ?l ?d1] =>
    pose proof (apply_at_skeleton (set_entity e dd) l d1) as [_ H2] end.
  specialize (H1 r). specialize (H2 r). rewrite H1, Hn in H2.
  match goal with |- is_Some ?o => destruct o; [eauto|done] end.
Qed.

End Recompute.

(** ** The state of the entries *)

Section LabelClaims.
Context {Entity : Type}.
Context (getLabel : LabelArg → string) (entityDb : string → option Entity).
Context (sort : (string → string → Z) → list string → list string).
Implicit Types (d : Document Entity) (t : Labels).

Lemma or_empty_Own s : JS.or_empty (JS.Own s) = JS.Own s.
Proof. unfold JS.or_empty. by destruct (decide (s = "")) as [->|]. Qed.

Lemma elem_of_all_rids d xrefs id :
  id ∈ all_rids d xrefs ↔ ∃ xref, xref ∈ xrefs ∧ id ∈ rids_of d xref.
Proof.
  unfold all_rids. rewrite list_elem_of_bind.
  split; intros (x & H1 & H2); exists x; by split.
Qed.

(** C9. Without in-scope markers the call returns at once: the document is
    left as it is and no flow is started. *)
Theorem no_markers_no_writes d :
  findAll sel_xref_bibr d = [] →
  _updateCitationLabels getLabel entityDb sort d = (d, Skipped).
Proof.
  intros Hnone. unfold _updateCitationLabels.
  rewrite Hnone. simpl. reflexivity.
Qed.

(** C1, as amended. When the document has no in-scope marker the call
    returns early and every entry keeps the state it had. When it has one,
    and every marker has a [rid] attribute whose pieces are plain, every
    entry of the reference list whose node id is listed by some in-scope
    marker stores the label of the position of that id and the position
    itself, and every other entry whose node id is not the name of a member
    of [Object.prototype] stores the empty label and no position. *)
Theorem entry_state_after_recompute d :
  (∀ cmp l, sort cmp l ≡ₚ l) →
  (findAll sel_xref_bibr d = [] →
   _updateCitationLabels getLabel entityDb sort d = (d, Skipped))
  ∧ (findAll sel_xref_bibr d ≠ [] →
     Forall (λ x, is_Some (getAttribute d x "rid")) (findAll sel_xref_bibr d) →
     Forall plain (all_rids d (findAll sel_xref_bibr d)) →
     ∃ t, forEach_xref getLabel d (findAll sel_xref_bibr d) initial_labels
          = Some t
       ∧ ∀ ref, ref ∈ findAll sel_ref_list_ref d →
           (referenced d ref →
              ∃ n, order t !! ref = Some n
                ∧ state_label (_updateCitationLabels getLabel entityDb sort d).1 ref
                  = JS.Own (getLabel (Position (JS.Own n)))
                ∧ state_pos (_updateCitationLabels getLabel entityDb sort d).1 ref
                  = JS.Own n)
           ∧ (¬ referenced d ref → ref ∉ JS.prototype_members →
              state_label (_updateCitationLabels getLabel entityDb sort d).1 ref
              = JS.Own ""
              ∧ state_pos (_updateCitationLabels getLabel entityDb sort d).1 ref
                = JS.Undefined)).
Proof.
  intros Hsort. split.
  { intros Hnone. unfold _updateCitationLabels. by rewrite Hnone. }
  intros Hne Hrid Hplain.
  destruct (forEach_xref_inv getLabel d _ _ _ (labels_inv_initial _) Hrid
              (Forall_nil_2 _) Hplain) as (t & Ht & I & _). simpl in I.
  exists t. split; [done|]. intros r Hr.
  rewrite (_updateCitationLabels_Some getLabel entityDb sort d t) by done.
  cbn [fst]. destruct (written_ref entityDb t d r Hr) as [-> ->].
  assert (referenced d r ↔ is_Some (order t !! r)) as Href.
  { rewrite (inv_dom _ _ _ I), elem_of_all_rids. done. }
  pose proof (inv_refLabels _ _ _ I r) as Hlab.
  split.
  - intros [n Hn]%Href. exists n. rewrite Hn in Hlab. simpl in Hlab.
    rewrite (read_Some _ _ _ Hlab), (read_Some _ _ _ Hn).
    split_and!; try done. apply or_empty_Own.
  - intros Hnr Hmember. destruct (order t !! r) as [n|] eqn:E.
    { exfalso. apply Hnr, Href. eauto. }
    simpl in Hlab. rewrite (read_None _ _ Hlab Hmember), (read_None _ _ E Hmember).
    done.
Qed.

End LabelClaims.

(** ** Running the computation twice *)

Section Idempotence.
Context {Entity : Type}.
Context (getLabel : LabelArg → string) (entityDb : string → option Entity).
Context (sort : (string → string → Z) → list string → list string).
Implicit Types (d : Document Entity) (t : Labels).

Lemma get_apply_at_fmap (F : string → NodeState Entity → NodeState Entity) l k d :
  (∀ s, F k (F k s) = F k s) →
  get (apply_at F l d) k
  = (if decide (k ∈ l) then update_state (F k) else λ n, n) <$> get d k.
Proof.
  intros H. rewrite get_apply_at by done.
  destruct (decide (k ∈ l)); [done|]. by destruct (get d k).
Qed.

Lemma get_written t d k :
  get (written entityDb t d) k
  = (λ n,
      (if decide (k ∈ findAll sel_ref_list_ref d)
       then update_state (set_ref_label t k) else λ n, n)
      ((if decide (k ∈ findAll sel_ref_list_ref d)
        then update_state (set_entity entityDb d k) else λ n, n)
       ((if decide (k ∈ findAll sel_xref_bibr d)
         then update_state (set_xref_label t k) else λ n, n) n)))
    <$> get d k.
Proof.
  unfold written.
  rewrite !get_apply_at_fmap
    by first [apply set_ref_label_idem|apply set_entity_idem|apply set_xref_label_idem].
  by destruct (get d k).
Qed.

Lemma written_idem t d :
  written entityDb t (written entityDb t d) = written entityDb t d.
Proof.
  pose proof (written_skeleton entityDb t d) as Hsk.
  apply document_eq.
  - apply (written_skeleton entityDb t (written entityDb t d)).
  - intros k. rewrite (get_written t (written entityDb t d)).
    rewrite !(same_skeleton_findAll _ _ _ Hsk).
    assert (∀ s, set_entity entityDb (written entityDb t d) k s
                 = set_entity entityDb d k s) as Hent.
    { intros s. unfold set_entity.
      by rewrite (same_skeleton_getAttribute _ _ _ _ Hsk). }
    rewrite get_written. destruct (get d k) as [n|]; [|done]. simpl. f_equal.
    destruct (decide (k ∈ findAll sel_ref_list_ref d)),
             (decide (k ∈ findAll sel_xref_bibr d));
      unfold update_state; simpl; rewrite ?Hent; try done;
      unfold set_entity, set_ref_label, set_xref_label; simpl;
      repeat f_equal;
      destruct (state n) as [s|]; simpl; try done;
      try (destruct (entity s); [done|]);
      by destruct (getAttribute d k "rid" ≫= entityDb).
Qed.

Lemma notified_skeleton d d' : same_skeleton d d' → notified d' = notified d.
Proof.
  intros H. unfold notified.
  by rewrite (same_skeleton_find _ _ _ H), !(same_skeleton_findAll _ _ _ H).
Qed.

Lemma _updateCitationLabels_TypeError d :
  findAll sel_xref_bibr d ≠ [] →
  forEach_xref getLabel d (findAll sel_xref_bibr d) initial_labels = None →
  _updateCitationLabels getLabel entityDb sort d = (d, TypeError).
Proof.
  intros Hne Ht. unfold _updateCitationLabels. rewrite Ht.
  by rewrite bool_decide_eq_false_2
    by (destruct (findAll sel_xref_bibr d); [done|simpl; lia]).
Qed.

(** Whatever way the call ends, it leaves types, parents, attributes and
    the document order as they were. *)
Lemma _updateCitationLabels_skeleton d :
  (∀ cmp l, sort cmp l ≡ₚ l) →
  same_skeleton d (_updateCitationLabels getLabel entityDb sort d).1.
Proof.
  intros Hsort.
  destruct (decide (findAll sel_xref_bibr d = [])) as [Hnil|Hne].
  { rewrite (_updateCitationLabels_Skipped getLabel entityDb sort d Hnil).
    apply same_skeleton_refl. }
  destruct (forEach_xref getLabel d (findAll sel_xref_bibr d) initial_labels)
    as [t|] eqn:Ht.
  - rewrite (_updateCitationLabels_Some getLabel entityDb sort d t) by done.
    apply written_skeleton.
  - rewrite (_updateCitationLabels_TypeError d) by done.
    apply same_skeleton_refl.
Qed.

(** The second of two calls in a row returns what the first returned. *)
Lemma _updateCitationLabels_again d :
  (∀ cmp l, sort cmp l ≡ₚ l) →
  _updateCitationLabels getLabel entityDb sort
    (_updateCitationLabels getLabel entityDb sort d).1
  = _updateCitationLabels getLabel entityDb sort d.
Proof.
  intros Hsort.
  destruct (decide (findAll sel_xref_bibr d = [])) as [Hnil|Hne].
  { pose proof (_updateCitationLabels_Skipped getLabel entityDb sort d Hnil) as E.
    rewrite !E. simpl. by rewrite E. }
  destruct (forEach_xref getLabel d (findAll sel_xref_bibr d) initial_labels)
    as [t|] eqn:Ht.
  - rewrite (_updateCitationLabels_Some getLabel entityDb sort d t) by done.
    simpl. pose proof (written_skeleton entityDb t d) as Hsk.
    rewrite (_updateCitationLabels_Some getLabel entityDb sort _ t); try done.
    + by rewrite written_idem, (notified_skeleton _ _ Hsk).
    + by rewrite (same_skeleton_findAll _ _ _ Hsk).
    + rewrite (same_skeleton_findAll _ _ _ Hsk), <- Ht.
      apply forEach_xref_attributes. intros x.
      by apply same_skeleton_getAttribute.
  - pose proof (_updateCitationLabels_TypeError d Hne Ht) as E.
    rewrite !E. simpl. by rewrite E.
Qed.

(** C8. Running [_updateCitationLabels] again on the document it left
    behind computes the same order and label tables, leaves the document as
    it is and ends the same way. *)
Theorem recompute_idempotent d :
  (∀ cmp l, sort cmp l ≡ₚ l) →
  forEach_xref getLabel (_updateCitationLabels getLabel entityDb sort d).1
    (findAll sel_xref_bibr (_updateCitationLabels getLabel entityDb sort d).1)
    initial_labels
  = forEach_xref getLabel d (findAll sel_xref_bibr d) initial_labels
  ∧ _updateCitationLabels getLabel entityDb sort
      (_updateCitationLabels getLabel entityDb sort d).1
    = _updateCitationLabels getLabel entityDb sort d.
Proof.
  intros Hsort. split.
  - pose proof (_updateCitationLabels_skeleton d Hsort) as Hsk.
    rewrite (same_skeleton_findAll _ _ _ Hsk).
    apply forEach_xref_attributes. intros x.
    by apply same_skeleton_getAttribute.
  - by apply _updateCitationLabels_again.
Qed.

End Idempotence.

(** ** The change classifier *)

Section Classifier.
Context {Entity : Type}.
Implicit Types (d : Document Entity) (op : Op) (ops : list Op).

Lemma bibr_xref_decide (val : NodeData) :
  bool_decide (data_type val = "xref")
  && match data_attributes val with
     | Some attrs => bool_decide (attrs !! "ref-type" = Some "bibr")
     | None => false
     end = true
  ↔ bibr_xref val.
Proof.
  unfold bibr_xref. rewrite andb_true_iff, bool_decide_eq_true.
  destruct (data_attributes val) as [attrs|].
  - rewrite bool_decide_eq_true. split.
    + intros [? ?]. eauto.
    + intros [? (attrs' & [= <-] & ?)]. done.
  - split; [intros [_ ?]; done|]. intros [_ (attrs' & ? & _)]. done.
Qed.

Lemma op_needsUpdate_relevant d op : op_needsUpdate d op = true ↔ relevant d op.
Proof.
  destruct op as [val|val|path val original|]; simpl.
  - rewrite bibr_xref_decide. split; [by constructor|]. intros R. by inversion R.
  - rewrite bibr_xref_decide. split; [by constructor|]. intros R. by inversion R.
  - split.
    + destruct (bool_decide (path !! 1%nat = Some "attributes")) eqn:E1; [|done].
      apply bool_decide_eq_true in E1.
      destruct (bool_decide (path !! 2%nat = Some "ref-type")
                && (bool_decide (val = Some "bibr")
                    || bool_decide (original = Some "bibr"))) eqn:E2.
      * intros _. apply andb_true_iff in E2 as [E2 E3].
        apply bool_decide_eq_true in E2. apply orb_true_iff in E3.
        rewrite !bool_decide_eq_true in E3. by apply rule2.
      * destruct (bool_decide (path !! 2%nat = Some "rid")) eqn:E3; [|done].
        apply bool_decide_eq_true in E3.
        destruct (path !! 0%nat ≫= get d) as [node|] eqn:E4; [|done].
        intros E5%bool_decide_eq_true. by eapply rule3.
    + inversion 1 as [| |? ? ? [H1 H2] Hv|? ? ? node [H1 H2] Hn Ha]; subst.
      * rewrite (bool_decide_eq_true_2 _ H1), (bool_decide_eq_true_2 _ H2).
        destruct Hv as [->| ->];
          rewrite (bool_decide_eq_true_2 (Some "bibr" = Some "bibr")) by done;
          by rewrite ?orb_true_r.
      * rewrite (bool_decide_eq_true_2 _ H1).
        rewrite (bool_decide_eq_false_2 (path !! 2%nat = Some "ref-type"))
          by (rewrite H2; done).
        simpl. rewrite (bool_decide_eq_true_2 _ H2), Hn.
        by apply bool_decide_eq_true.
  - split; [done|inversion 1].
Qed.

Lemma needsUpdate_relevant d ops :
  needsUpdate d ops = true ↔ ∃ op, op ∈ ops ∧ relevant d op.
Proof.
  induction ops as [|op ops IH]; simpl.
  - split; [done|]. intros (op & H & _). by apply elem_of_nil in H.
  - destruct (op_needsUpdate d op) eqn:E.
    + split; [|done]. intros _. exists op.
      split; [apply elem_of_cons; auto|by apply op_needsUpdate_relevant].
    + rewrite IH. split.
      * intros (op' & H & R). exists op'. split; [apply elem_of_cons; auto|done].
      * intros (op' & H & R). apply elem_of_cons in H as [->|H]; [|eauto].
        apply op_needsUpdate_relevant in R. congruence.
Qed.

Lemma needsUpdate_no_ops d : needsUpdate d [] = false.
Proof. done. Qed.

(** C6. The classifier answers that an update is needed exactly when some
    operation of the batch matches one of the three rules. A [set] of any
    other attribute, and a [set] of [rid] on a node whose [ref-type] is not
    [bibr], are never a reason; a [set] of [rid] on a node that the
    document no longer has is not a reason either, and the scan goes on
    with the operations after it. *)
Theorem classifier_follows_rules d ops :
  (needsUpdate d ops = true ↔ ∃ op, op ∈ ops ∧ relevant d op)
  ∧ (∀ path val original,
       path !! 2%nat ≠ Some "ref-type" → path !! 2%nat ≠ Some "rid" →
       op_needsUpdate d (op_set path val original) = false)
  ∧ (∀ path val original node,
       sets_attribute path "rid" → path !! 0%nat ≫= get d = Some node →
       attributes node !! "ref-type" ≠ Some "bibr" →
       op_needsUpdate d (op_set path val original) = false)
  ∧ (∀ path val original rest,
       sets_attribute path "rid" → path !! 0%nat ≫= get d = None →
       op_needsUpdate d (op_set path val original) = false
       ∧ needsUpdate d (op_set path val original :: rest) = needsUpdate d rest).
Proof.
  split_and!.
  - apply needsUpdate_relevant.
  - intros path val original H1 H2. simpl.
    rewrite (bool_decide_eq_false_2 _ H1), (bool_decide_eq_false_2 _ H2). simpl.
    by destruct (bool_decide _).
  - intros path val original node [H1 H2] Hn Ha.
    apply not_true_is_false. intros R%op_needsUpdate_relevant.
    inversion R as [| |? ? ? [_ H2'] _|? ? ? node' _ Hn' Ha']; subst.
    + rewrite H2 in H2'. done.
    + rewrite Hn in Hn'. injection Hn' as <-. done.
  - intros path val original rest [H1 H2] Hn.
    assert (op_needsUpdate d (op_set path val original) = false) as E.
    { apply not_true_is_false. intros R%op_needsUpdate_relevant.
      inversion R as [| |? ? ? [_ H2'] _|? ? ? node' _ Hn' Ha']; subst.
      - rewrite H2 in H2'. done.
      - rewrite Hn in Hn'. done. }
    split; [done|]. cbn [needsUpdate]. by rewrite E.
Qed.

End Classifier.

(** ** Notifications and deferred updates *)

Section Session.
Context {Entity : Type}.
Context (getLabel : LabelArg → string) (entityDb : string → option Entity).
Context (sort : (string → string → Z) → list string → list string).
Implicit Types (d : Document Entity) (s : EditorSession Entity).

Lemma commit_needsUpdate s d ops :
  needsUpdate d ops = true →
  commit s d ops = mkSession d (timers s ++ [task_updateCitationLabels]).
Proof. intros H. unfold commit, _onDocumentChange. simpl. by rewrite H. Qed.

Lemma commit_no_update s d ops :
  needsUpdate d ops = false → commit s d ops = mkSession d (timers s).
Proof. intros H. unfold commit, _onDocumentChange. simpl. by rewrite H. Qed.

(** C2, as amended. Every notification that needs an update puts its own
    callback in the timer queue. After two such notifications with no
    callback run in between, two callbacks wait; both runs read the
    document as the second transaction left it, and the second run ends as
    the first did and leaves the document as the first left it. *)
Theorem every_relevant_change_schedules_an_update s d1 ops1 d2 ops2 :
  (∀ cmp l, sort cmp l ≡ₚ l) →
  timers s = [] →
  needsUpdate d1 ops1 = true →
  needsUpdate d2 ops2 = true →
  timers (commit (commit s d1 ops1) d2 ops2)
  = [task_updateCitationLabels; task_updateCitationLabels]
  ∧ run_pending getLabel entityDb sort (commit (commit s d1 ops1) d2 ops2)
    = (mkSession (_updateCitationLabels getLabel entityDb sort d2).1 [],
       [ (_updateCitationLabels getLabel entityDb sort d2).2;
         (_updateCitationLabels getLabel entityDb sort d2).2 ]).
Proof.
  intros Hsort Hs H1 H2.
  rewrite (commit_needsUpdate _ _ _ H2), (commit_needsUpdate _ _ _ H1), Hs.
  split; [done|]. unfold run_pending. simpl.
  pose proof (_updateCitationLabels_again getLabel entityDb sort d2 Hsort) as Hidem.
  destruct (_updateCitationLabels getLabel entityDb sort d2) as [d' o] eqn:E.
  simpl in *. by rewrite Hidem.
Qed.

End Session.

(** ** The sample sorts *)

Section SampleSorts.
Context {A : Type}.
Implicit Types (moves : A → A → bool) (l : list A).

Lemma insert_by_perm moves x l : Sample.insert_by moves x l ≡ₚ x :: l.
Proof.
  induction l as [|y l IH]; simpl; [done|].
  destruct (moves y x); [|done]. rewrite IH. apply perm_swap.
Qed.

Lemma insertion_sort_by_perm moves l : Sample.insertion_sort_by moves l ≡ₚ l.
Proof.
  unfold Sample.insertion_sort_by. rewrite <- Permutation_rev.
  assert (∀ acc, foldl (λ rprefix element, Sample.insert_by moves element rprefix)
                   acc l ≡ₚ acc ++ l) as H; [|apply (H [])].
  induction l as [|x l IH]; intros acc; simpl.
  - by rewrite app_nil_r.
  - rewrite IH, insert_by_perm. simpl. apply Permutation_middle.
Qed.

Lemma sort_gt_perm (cmp : A → A → Z) l : Sample.sort_gt cmp l ≡ₚ l.
Proof. apply insertion_sort_by_perm. Qed.

Lemma sort_lt_perm (cmp : A → A → Z) l : Sample.sort_lt cmp l ≡ₚ l.
Proof. apply insertion_sort_by_perm. Qed.

End SampleSorts.

(** On a comparator that orders its arguments both sorts sort. *)
Example sample_sorts_sort :
  Sample.sort_gt Z.sub [3; 1; 2; 5; 4]%Z = [1; 2; 3; 4; 5]%Z
  ∧ Sample.sort_lt Z.sub [3; 1; 2; 5; 4]%Z = [1; 2; 3; 4; 5]%Z.
Proof. by vm_compute. Qed.

(** ** The order of [getBibliography] *)

Lemma compare_pos_nonneg {Entity} (d : Document Entity) a b :
  (0 ≤ compare_pos d a b)%Z.
Proof. unfold compare_pos. by destruct (JS.gt _ _). Qed.

Lemma compare_pos_unset {Entity} (d : Document Entity) a b :
  state_pos d a = JS.Undefined ∨ state_pos d b = JS.Undefined →
  compare_pos d a b = 0%Z.
Proof.
  unfold compare_pos. intros [-> | ->]; [done|].
  by destruct (state_pos d a).
Qed.

(** C3. The comparator of [getBibliography] never answers with a negative
    number and answers 0 whenever one of the two entries has no position.
    On a reference list that holds, in document order, an entry without a
    position, the entry of position 2 and the entry of position 1, the
    insertion sort that moves on a positive answer returns the entry
    without a position first, and the insertion sort that moves on a
    negative answer returns the list as it was, position 2 before position
    1. *)
Theorem getBibliography_is_not_sorted :
  (∀ (d : Document string) a b, (0 ≤ compare_pos d a b)%Z)
  ∧ (∀ (d : Document string) a b,
       state_pos d a = JS.Undefined ∨ state_pos d b = JS.Undefined →
       compare_pos d a b = 0%Z)
  ∧ findAll sel_ref_list_ref (Sample.recompute Sample.doc_unsorted).1
    = ["r0"; "r1"; "r2"]
  ∧ state_pos (Sample.recompute Sample.doc_unsorted).1 <$> ["r0"; "r1"; "r2"]
    = [JS.Undefined; JS.Own 2; JS.Own 1]
  ∧ (getBibliography Sample.entities Sample.sort_gt
       (Sample.recompute Sample.doc_unsorted).1).2
    = ["r0"; "r2"; "r1"]
  ∧ (getBibliography Sample.entities Sample.sort_lt
       (Sample.recompute Sample.doc_unsorted).1).2
    = ["r0"; "r1"; "r2"].
Proof.
  split_and!; [apply @compare_pos_nonneg|apply @compare_pos_unset|..];
    by vm_compute.
Qed.

(** ** Markers with an empty or missing [rid] *)

Lemma split_nonempty sep s : JS.split sep s ≠ [].
Proof.
  destruct s as [|c s]; simpl; [done|].
  destruct (decide (c = sep)); [done|]. by destruct (JS.split sep s).
Qed.

(** C7. The pieces of an empty [rid] attribute are the one empty
    identifier. A marker with an empty [rid] makes that identifier take
    position 1: the marker's list of positions is [1], its label is the
    label of that list, and the entry cited by the next marker gets
    position 2. A marker without a [rid] attribute makes the call end in a
    [TypeError]. *)
Theorem empty_rid_takes_a_position :
  rids_of Sample.doc_empty_rid "x1" = [""]
  ∧ (∃ t, forEach_xref Sample.numeric_label Sample.doc_empty_rid
            (findAll sel_xref_bibr Sample.doc_empty_rid) initial_labels = Some t
          ∧ order t !! "" = Some 1
          ∧ order t !! "r1" = Some 2
          ∧ xrefLabels t !! "x1"
            = Some (Sample.numeric_label (Positions [JS.Own 1])))
  ∧ state_label (Sample.recompute Sample.doc_empty_rid).1 "x1" = JS.Own "1"
  ∧ state_label (Sample.recompute Sample.doc_empty_rid).1 "r1" = JS.Own "2"
  ∧ Sample.recompute Sample.doc_no_rid = (Sample.doc_no_rid, TypeError).
Proof.
  split_and!; try by vm_compute.
  eexists. split_and!; by vm_compute.
Qed.

(** ** Identifiers that [order] does not treat as keys *)

(** C4. The order map is not the rank of first occurrence in three cases.
    A marker that lists [__proto__] twice and then [r1] leaves [__proto__]
    without a position and gives [r1] position 3, where its rank is 2. A
    marker with an empty [rid] before a marker that lists [r1] gives [r1],
    the only identifier listed, position 2. A marker that lists
    [hasOwnProperty] and then [r1] makes the loop throw, so that there is
    no order map. *)
Theorem order_is_not_always_the_rank :
  (rids_of MoreSamples.doc_proto "x1" = ["__proto__"; "__proto__"; "r1"]
   ∧ ∃ t, forEach_xref Sample.numeric_label MoreSamples.doc_proto
            (findAll sel_xref_bibr MoreSamples.doc_proto) initial_labels
          = Some t
        ∧ order t !! "__proto__" = None
        ∧ order t !! "r1" = Some 3)
  ∧ (∃ t, forEach_xref Sample.numeric_label Sample.doc_empty_rid
            (findAll sel_xref_bibr Sample.doc_empty_rid) initial_labels
          = Some t
        ∧ order t !! "r1" = Some 2)
  ∧ rids_of MoreSamples.doc_hasOwnProperty "x1" = ["hasOwnProperty"; "r1"]
  ∧ forEach_xref Sample.numeric_label MoreSamples.doc_hasOwnProperty
      (findAll sel_xref_bibr MoreSamples.doc_hasOwnProperty) initial_labels
    = None.
Proof.
  split_and!; try by vm_compute.
  - eexists. split_and!; by vm_compute.
  - eexists. split_and!; by vm_compute.
Qed.

(** C5. The label of a marker is not always the label of the positions of
    its identifiers. A marker that lists [hasOwnProperty] and then [r1]
    makes the call end in a [TypeError] with no label stored. A marker that
    lists [__proto__] is labelled with a list that holds [Object.prototype]
    where the position of [__proto__] should be. A marker with an empty
    [rid] is labelled with the label of the list [1], not with the label
    of the empty list. *)
Theorem marker_label_is_not_always_of_positions :
  (Sample.recompute MoreSamples.doc_hasOwnProperty
   = (MoreSamples.doc_hasOwnProperty, TypeError)
   ∧ state_label (Sample.recompute MoreSamples.doc_hasOwnProperty).1 "x1"
     = JS.Undefined)
  ∧ state_label (Sample.recompute MoreSamples.doc_proto).1 "x1"
    = JS.Own (Sample.numeric_label
                (Positions [JS.Inherited "__proto__"; JS.Inherited "__proto__";
                            JS.Own 3]))
  ∧ state_label (Sample.recompute Sample.doc_empty_rid).1 "x1"
    = JS.Own (Sample.numeric_label (Positions [JS.Own 1]))
  ∧ Sample.numeric_label (Positions [JS.Own 1])
    ≠ Sample.numeric_label (Positions []).
Proof. split_and!; try split; by vm_compute. Qed.

(** C10. The positions are not always 1, ..., N. A marker that lists
    [__proto__] twice and then [r1] lists two distinct identifiers, but the
    only position in the order map is 3: positions 1 and 2 are used up
    without being assigned. A marker with an empty [rid] before a marker
    that lists [r1] gives out positions 1 and 2 for one identifier. *)
Theorem positions_are_not_always_consecutive :
  (size (list_to_set (all_rids MoreSamples.doc_proto
                        (findAll sel_xref_bibr MoreSamples.doc_proto))
         : gset string) = 2
   ∧ ∃ t, forEach_xref Sample.numeric_label MoreSamples.doc_proto
            (findAll sel_xref_bibr MoreSamples.doc_proto) initial_labels
          = Some t
        ∧ order t = {[ "r1" := 3 ]}
        ∧ next_pos t = 4)
  ∧ (∃ t, forEach_xref Sample.numeric_label Sample.doc_empty_rid
            (findAll sel_xref_bibr Sample.doc_empty_rid) initial_labels
          = Some t
        ∧ order t = {[ "" := 1; "r1" := 2 ]}).
Proof.
  split.
  - split; [by vm_compute|]. eexists. split_and!; by vm_compute.
  - eexists. split_and!; by vm_compute.
Qed.

(** ** The properties on the sample documents *)

Ltac by_computation := apply (bool_decide_unpack _); vm_compute; exact I.

Lemma doc_P2_markers : findAll sel_xref_bibr Sample.doc_P2 = ["x1"; "x2"].
Proof. by vm_compute. Qed.

Lemma doc_P2_rids :
  Forall (λ x, is_Some (getAttribute Sample.doc_P2 x "rid"))
         (findAll sel_xref_bibr Sample.doc_P2).
Proof. rewrite doc_P2_markers. repeat constructor; vm_compute; eauto. Qed.

(** The spec's properties P2 and P3, by evaluation. *)
Example P2_order_and_P3_label :
  ∃ t, forEach_xref Sample.numeric_label Sample.doc_P2 ["x1"; "x2"] initial_labels
       = Some t
     ∧ order t = {[ "B" := 1; "A" := 2; "C" := 3 ]}
     ∧ xrefLabels t !! "x2" = Some "2,3".
Proof. eexists. split_and!; by vm_compute. Qed.

(** A marker that lists [A B A] is labelled with the positions 1, 2, 1. *)
Example duplicate_identifier_is_kept :
  state_label (Sample.recompute Sample.doc_duplicate).1 "x1" = JS.Own "1,2,1".
Proof. by vm_compute. Qed.

(** An entry that no marker lists and whose node id is the name of a
    member of [Object.prototype] does not get the empty label: it stores
    what the tables inherit under that name, as label and as position. *)
Example uncited_entry_named_like_a_member :
  ¬ referenced MoreSamples.doc_constructor "constructor"
  ∧ state_label (Sample.recompute MoreSamples.doc_constructor).1 "constructor"
    = JS.Inherited "constructor"
  ∧ state_pos (Sample.recompute MoreSamples.doc_constructor).1 "constructor"
    = JS.Inherited "constructor"
  ∧ state_label (Sample.recompute MoreSamples.doc_constructor).1 "r1"
    = JS.Own "1".
Proof.
  split_and!; try by vm_compute.
  intros (x & Hx & Hc).
  assert (findAll sel_xref_bibr MoreSamples.doc_constructor = ["x1"]) as E
    by (by vm_compute).
  rewrite E in Hx. apply list_elem_of_singleton in Hx as ->.
  revert Hc. by_computation.
Qed.

Lemma no_markers_witness :
  findAll sel_xref_bibr (Sample.remove_node "x1" Sample.doc_one) = []
  ∧ Sample.recompute (Sample.remove_node "x1" Sample.doc_one)
    = (Sample.remove_node "x1" Sample.doc_one, Skipped).
Proof.
  assert (findAll sel_xref_bibr (Sample.remove_node "x1" Sample.doc_one) = [])
    as H by (by vm_compute).
  split; [exact H|].
  exact (no_markers_no_writes Sample.numeric_label Sample.entities Sample.sort_gt
           _ H).
Defined.

Lemma doc_P2_plain :
  Forall plain (all_rids Sample.doc_P2 (findAll sel_xref_bibr Sample.doc_P2)).
Proof. by_computation. Qed.

Lemma entry_state_witness :
  (∀ (cmp : string → string → Z) l, Sample.sort_gt cmp l ≡ₚ l)
  ∧ Sample.recompute (Sample.remove_node "x1" (Sample.recompute Sample.doc_one).1)
    = (Sample.remove_node "x1" (Sample.recompute Sample.doc_one).1, Skipped)
  ∧ state_label (Sample.recompute Sample.doc_P2).1 "A" = JS.Own "2"
  ∧ state_pos (Sample.recompute Sample.doc_P2).1 "A" = JS.Own 2
  ∧ state_label (Sample.recompute Sample.doc_P2).1 "D" = JS.Own ""
  ∧ state_pos (Sample.recompute Sample.doc_P2).1 "D" = JS.Undefined.
Proof.
  assert (findAll sel_xref_bibr Sample.doc_P2 ≠ []) as Hne
    by (by rewrite doc_P2_markers).
  split_and!; [exact sort_gt_perm|..].
  { apply (entry_state_after_recompute Sample.numeric_label Sample.entities
             Sample.sort_gt _ sort_gt_perm). by vm_compute. }
  all: unfold Sample.recompute.
  all: destruct (proj2 (entry_state_after_recompute Sample.numeric_label
                          Sample.entities Sample.sort_gt Sample.doc_P2
                          sort_gt_perm) Hne doc_P2_rids doc_P2_plain)
         as (t & Ht & H).
  all: assert (order t !! "A" = Some 2) as HA
         by (vm_compute in Ht; injection Ht as <-; by vm_compute).
  - destruct (H "A" ltac:(by_computation)) as [Hcited _].
    destruct Hcited as (n & Hn & Hl & _).
    { exists "x1". split; by_computation. }
    rewrite Hl. rewrite HA in Hn. by injection Hn as <-.
  - destruct (H "A" ltac:(by_computation)) as [Hcited _].
    destruct Hcited as (n & Hn & _ & Hp).
    { exists "x1". split; by_computation. }
    rewrite Hp. rewrite HA in Hn. by injection Hn as <-.
  - destruct (H "D" ltac:(by_computation)) as [_ Huncited].
    apply Huncited; [|by_computation]. intros (x & Hx & Hd).
    rewrite doc_P2_markers in Hx.
    repeat (apply elem_of_cons in Hx as [->|Hx]; [revert Hd; by_computation|]).
    by apply elem_of_nil in Hx.
  - destruct (H "D" ltac:(by_computation)) as [_ Huncited].
    apply Huncited; [|by_computation]. intros (x & Hx & Hd).
    rewrite doc_P2_markers in Hx.
    repeat (apply elem_of_cons in Hx as [->|Hx]; [revert Hd; by_computation|]).
    by apply elem_of_nil in Hx.
Defined.

Lemma recompute_idempotent_witness :
  (∀ (cmp : string → string → Z) l, Sample.sort_gt cmp l ≡ₚ l)
  ∧ forEach_xref Sample.numeric_label (Sample.recompute Sample.doc_P2).1
      (findAll sel_xref_bibr (Sample.recompute Sample.doc_P2).1) initial_labels
    = forEach_xref Sample.numeric_label Sample.doc_P2
        (findAll sel_xref_bibr Sample.doc_P2) initial_labels
  ∧ Sample.recompute (Sample.recompute Sample.doc_P2).1
    = Sample.recompute Sample.doc_P2.
Proof.
  split; [exact sort_gt_perm|].
  exact (recompute_idempotent Sample.numeric_label Sample.entities Sample.sort_gt
           Sample.doc_P2 sort_gt_perm).
Defined.

Lemma two_changes_witness :
  (∀ (cmp : string → string → Z) l, Sample.sort_gt cmp l ≡ₚ l)
  ∧ needsUpdate Sample.doc_P2_first Sample.ops_create_x2 = true
  ∧ needsUpdate Sample.doc_P2 Sample.ops_retarget_x2 = true
  ∧ timers Sample.session_P2
    = [task_updateCitationLabels; task_updateCitationLabels]
  ∧ run_pending Sample.numeric_label Sample.entities Sample.sort_gt Sample.session_P2
    = (mkSession (Sample.recompute Sample.doc_P2).1 [],
       [ (Sample.recompute Sample.doc_P2).2; (Sample.recompute Sample.doc_P2).2 ]).
Proof.
  assert (needsUpdate Sample.doc_P2_first Sample.ops_create_x2 = true) as H1
    by (by vm_compute).
  assert (needsUpdate Sample.doc_P2 Sample.ops_retarget_x2 = true) as H2
    by (by vm_compute).
  split_and!; [exact sort_gt_perm|exact H1|exact H2|..];
    apply (every_relevant_change_schedules_an_update Sample.numeric_label
             Sample.entities Sample.sort_gt
             (mkSession (Sample.remove_node "x2" Sample.doc_P2) [])
             Sample.doc_P2_first Sample.ops_create_x2
             Sample.doc_P2 Sample.ops_retarget_x2 sort_gt_perm eq_refl H1 H2).
Defined.

(** C1, as stated, fails in two ways. An entry whose [rid] attribute is
    listed by an in-scope marker is not labelled with the position of that
    identifier, because the tables are read at the entry's node id. And
    when the last marker is gone, an entry that no marker lists keeps the
    label and position of the previous run. *)
Lemma entry_label_counterexample :
  ( "r1" ∈ findAll sel_ref_list_ref Sample.doc_by_rid
    ∧ getAttribute Sample.doc_by_rid "r1" "rid" = Some "entity-1"
    ∧ referenced Sample.doc_by_rid "entity-1"
    ∧ (∃ t, forEach_xref Sample.numeric_label Sample.doc_by_rid
              (findAll sel_xref_bibr Sample.doc_by_rid) initial_labels = Some t
            ∧ order t !! "entity-1" = Some 1)
    ∧ state_label (Sample.recompute Sample.doc_by_rid).1 "r1"
      ≠ JS.Own (Sample.numeric_label (Position (JS.Own 1))) )
  ∧ ( "r1" ∈ findAll sel_ref_list_ref
               (Sample.remove_node "x1" (Sample.recompute Sample.doc_one).1)
      ∧ ¬ referenced (Sample.remove_node "x1" (Sample.recompute Sample.doc_one).1)
                     "entity-1"
      ∧ ¬ referenced (Sample.remove_node "x1" (Sample.recompute Sample.doc_one).1)
                     "r1"
      ∧ state_label
          (Sample.recompute
             (Sample.remove_node "x1" (Sample.recompute Sample.doc_one).1)).1 "r1"
        ≠ JS.Own ""
      ∧ state_pos
          (Sample.recompute
             (Sample.remove_node "x1" (Sample.recompute Sample.doc_one).1)).1 "r1"
        ≠ JS.Undefined ).
Proof.
  assert (∀ id, ¬ referenced
            (Sample.remove_node "x1" (Sample.recompute Sample.doc_one).1) id) as Hno.
  { intros id (x & Hx & _). revert Hx.
    replace (findAll sel_xref_bibr
               (Sample.remove_node "x1" (Sample.recompute Sample.doc_one).1))
      with (@nil string) by (by vm_compute).
    apply not_elem_of_nil. }
  split; split_and!; try apply Hno; try by_computation; try by vm_compute.
  - exists "x1". split; by_computation.
  - eexists. split; by vm_compute.
Qed.

(** C2, as stated, fails: after two notifications that need an update, with
    no callback run in between, two callbacks wait in the timer queue and
    the event loop runs [_updateCitationLabels] twice. *)
Lemma coalescing_counterexample :
  needsUpdate Sample.doc_P2_first Sample.ops_create_x2 = true
  ∧ needsUpdate Sample.doc_P2 Sample.ops_retarget_x2 = true
  ∧ length (timers Sample.session_P2) = 2
  ∧ length (run_pending Sample.numeric_label Sample.entities Sample.sort_gt
              Sample.session_P2).2 = 2.
Proof. split_and!; by vm_compute. Qed.

(** ** How [_updateCitationLabels] ends and what it touches *)

Section ReadingMarkers.
Context {Entity : Type} (getLabel : LabelArg → string).
Implicit Types (d : Document Entity) (t : Labels).

Lemma forEach_xref_None d xrefs :
  forEach_xref getLabel d xrefs initial_labels = None
  ↔ Exists (λ x, getAttribute d x "rid" = None) xrefs
    ∨ hasOwnProperty_then_more (all_rids d xrefs).
Proof.
  pose proof (forEach_xref_throws getLabel d xrefs initial_labels) as H.
  rewrite <- throws_false.
  change (has_hasOwnProperty initial_labels) with false in H.
  destruct (forEach_xref getLabel d xrefs initial_labels) as [t|].
  - destruct H as (HF & Hth & _). split; [done|].
    intros [HE|Ht]; [|congruence].
    by apply (proj1 (Forall_Exists_neg _ _)) in HE;
      [|eapply Forall_impl; [exact HF|]; intros x [? ->]].
  - done.
Qed.

Lemma forEach_xref_is_Some d xrefs :
  is_Some (forEach_xref getLabel d xrefs initial_labels)
  ↔ Forall (λ x, is_Some (getAttribute d x "rid")) xrefs
    ∧ ¬ hasOwnProperty_then_more (all_rids d xrefs).
Proof.
  rewrite <- not_eq_None_Some, forEach_xref_None.
  split.
  - intros H. split.
    + apply Forall_forall. intros x Hx. apply not_eq_None_Some. intros Hn.
      apply H. left. apply Exists_exists. eauto.
    + intros Hm. apply H. by right.
  - intros [HF Hm] [HE|?]; [|done].
    apply Exists_exists in HE as (x & Hx & Hn). rewrite Forall_forall in HF.
    destruct (HF x Hx) as [? ?]. congruence.
Qed.

End ReadingMarkers.

Section MoreRecompute.
Context {Entity : Type}.
Context (getLabel : LabelArg → string) (entityDb : string → option Entity).
Context (sort : (string → string → Z) → list string → list string).
Implicit Types (d : Document Entity) (t : Labels).

Lemma nonempty_length {A} (l : list A) :
  l ≠ [] → bool_decide (length l = 0) = false.
Proof. intros H. apply bool_decide_eq_false_2. by destruct l. Qed.


(** X2. When some in-scope marker has no [rid] attribute the call ends in
    a [TypeError] before anything is written: the document is left as it
    was, also for the markers read before that one. *)
Theorem marker_without_rid_leaves_document d :
  Exists (λ x, getAttribute d x "rid" = None) (findAll sel_xref_bibr d) →
  _updateCitationLabels getLabel entityDb sort d = (d, TypeError).
Proof.
  intros HE. unfold _updateCitationLabels.
  rewrite nonempty_length
    by (intros E; rewrite E in HE; by apply Exists_nil in HE).
  by rewrite (proj2 (forEach_xref_None getLabel d _) (or_introl HE)).
Qed.

(** X3. When the call starts a flow, the ids it reports as updated are
    the in-scope markers, the entries of the reference list and the first
    reference list of the document, and no other. *)
Theorem flow_reports_markers_entries_and_list d u :
  (∀ cmp l, sort cmp l ≡ₚ l) →
  (_updateCitationLabels getLabel entityDb sort d).2 = Flow u →
  ∀ k, k ∈ u ↔ k ∈ findAll sel_xref_bibr d
               ∨ k ∈ findAll sel_ref_list_ref d
               ∨ find sel_ref_list d = Some k.
Proof.
  intros Hsort Hu k.
  destruct (decide (findAll sel_xref_bibr d = [])) as [Hnil|Hne].
  { by rewrite (_updateCitationLabels_Skipped getLabel entityDb sort d Hnil) in Hu. }
  destruct (forEach_xref getLabel d (findAll sel_xref_bibr d) initial_labels)
    as [t|] eqn:Ht.
  - rewrite (_updateCitationLabels_Some getLabel entityDb sort d t) in Hu by done.
    simpl in Hu. unfold notified in Hu.
    destruct (find sel_ref_list d) as [rl|]; [|done].
    injection Hu as <-.
    rewrite !elem_of_union, !elem_of_list_to_set, elem_of_singleton.
    split; [intros [[?|?]| ->]; auto|].
    intros [?|[?|[= ->]]]; auto.
  - by rewrite (_updateCitationLabels_TypeError getLabel entityDb sort d Hne Ht) in Hu.
Qed.

(** X4. The call writes node state only. It leaves the document order and
    the type, parent and attributes of every node as they were, it adds and
    removes no node, it leaves every node that is neither an in-scope
    marker nor an entry of the reference list exactly as it was, and of a
    marker it changes the label only. *)
Theorem call_writes_state_of_markers_and_entries_only d :
  (∀ cmp l, sort cmp l ≡ₚ l) →
  same_skeleton d (_updateCitationLabels getLabel entityDb sort d).1
  ∧ (∀ k, is_Some (get (_updateCitationLabels getLabel entityDb sort d).1 k)
          ↔ is_Some (get d k))
  ∧ (∀ k, k ∉ findAll sel_xref_bibr d → k ∉ findAll sel_ref_list_ref d →
          get (_updateCitationLabels getLabel entityDb sort d).1 k = get d k)
  ∧ (∀ x, x ∈ findAll sel_xref_bibr d →
          state_pos (_updateCitationLabels getLabel entityDb sort d).1 x
          = state_pos d x
          ∧ state_entity (_updateCitationLabels getLabel entityDb sort d).1 x
            = state_entity d x).
Proof.
  intros Hsort.
  pose proof (_updateCitationLabels_skeleton getLabel entityDb sort d Hsort) as Hsk.
  split_and!; [done| | |].
  - intros k. destruct Hsk as [_ Hk]. specialize (Hk k).
    rewrite <- !(fmap_is_Some skeleton). by rewrite Hk.
  - intros k Hx Hr.
    destruct (decide (findAll sel_xref_bibr d = [])) as [Hnil|Hne].
    { by rewrite (_updateCitationLabels_Skipped getLabel entityDb sort d Hnil). }
    destruct (forEach_xref getLabel d (findAll sel_xref_bibr d) initial_labels)
      as [t|] eqn:Ht.
    + rewrite (_updateCitationLabels_Some getLabel entityDb sort d t) by done.
      simpl. rewrite get_written. rewrite !decide_False by done.
      by destruct (get d k).
    + by rewrite (_updateCitationLabels_TypeError getLabel entityDb sort d Hne Ht).
  - intros x Hx.
    assert (findAll sel_xref_bibr d ≠ []) as Hne
      by (intros E; rewrite E in Hx; by apply elem_of_nil in Hx).
    destruct (forEach_xref getLabel d (findAll sel_xref_bibr d) initial_labels)
      as [t|] eqn:Ht.
    + rewrite (_updateCitationLabels_Some getLabel entityDb sort d t) by done.
      simpl. unfold state_pos, state_entity. rewrite get_written.
      rewrite !decide_False by (by apply xref_not_ref).
      rewrite decide_True by done.
      destruct (get d x) as [n|]; [|done]. simpl. by destruct (state n).
    + by rewrite (_updateCitationLabels_TypeError getLabel entityDb sort d Hne Ht).
Qed.

End MoreRecompute.

(** ** [getBibliography], [getAvailableResources] and [getReferenceIds] *)

Section MoreBibliography.
Context {Entity : Type}.
Context (getLabel : LabelArg → string) (entityDb : string → option Entity).
Context (sort : (string → string → Z) → list string → list string).
Implicit Types (d : Document Entity) (t : Labels).

Lemma getBibliography_document d :
  (getBibliography entityDb sort d).1
  = apply_at (set_entity entityDb d) (findAll sel_ref_list_ref d) d.
Proof.
  unfold getBibliography. simpl.
  apply foldl_resolve_entity, same_skeleton_refl.
Qed.

Lemma getBibliography_skeleton d :
  same_skeleton d (getBibliography entityDb sort d).1.
Proof. rewrite getBibliography_document. apply apply_at_skeleton. Qed.

(** X5. [getBibliography] resolves the entity of every entry of the
    reference list lazily and once: an entity that is already in the state
    is kept, a missing one is looked up in the entity database under the
    entry's [rid] attribute, and a miss leaves it missing. Labels and
    positions of all nodes, and every node that is not an entry, are left
    as they were. *)
Theorem getBibliography_resolves_entities_once d :
  (∀ r, r ∈ findAll sel_ref_list_ref d →
        state_entity (getBibliography entityDb sort d).1 r
        = match state_entity d r with
          | Some e => Some e
          | None => getAttribute d r "rid" ≫= entityDb
          end)
  ∧ (∀ k, state_label (getBibliography entityDb sort d).1 k = state_label d k
          ∧ state_pos (getBibliography entityDb sort d).1 k = state_pos d k)
  ∧ (∀ k, k ∉ findAll sel_ref_list_ref d →
          get (getBibliography entityDb sort d).1 k = get d k).
Proof.
  rewrite getBibliography_document. split_and!.
  - intros r Hr. unfold state_entity.
    rewrite get_apply_at by apply set_entity_idem.
    rewrite decide_True by done.
    destruct (findAll_get _ _ _ Hr) as [n ->]. simpl.
    by destruct (state n) as [s|].
  - intros k. unfold state_label, state_pos.
    rewrite get_apply_at by apply set_entity_idem.
    destruct (decide (k ∈ findAll sel_ref_list_ref d)); [|done].
    destruct (get d k) as [n|]; [|done]. simpl. by destruct (state n).
  - intros k Hk. rewrite get_apply_at by apply set_entity_idem.
    by rewrite decide_False.
Qed.

(** X6. A second [getBibliography] in a row leaves the document as the
    first left it: what the first call resolved is not looked up again and
    nothing else is written. *)
Theorem getBibliography_twice d :
  (getBibliography entityDb sort (getBibliography entityDb sort d).1).1
  = (getBibliography entityDb sort d).1.
Proof.
  pose proof (getBibliography_skeleton d) as Hsk.
  rewrite (getBibliography_document (getBibliography entityDb sort d).1).
  rewrite (same_skeleton_findAll _ _ _ Hsk).
  rewrite (apply_at_ext _ (set_entity entityDb d)).
  - rewrite getBibliography_document. apply document_eq.
    + apply (apply_at_skeleton (set_entity entityDb d)).
    + intros k. rewrite !get_apply_at by apply set_entity_idem.
      destruct (decide (k ∈ findAll sel_ref_list_ref d)); [|done].
      destruct (get d k) as [n|]; [|done]. simpl. f_equal.
      unfold update_state. simpl. by rewrite set_entity_idem.
  - intros k s. unfold set_entity.
    by rewrite (same_skeleton_getAttribute _ _ _ _ Hsk).
Qed.

(** X7. After a call of [_updateCitationLabels] that got past the early
    return and the reading of the markers (there is a marker, every marker
    has a [rid] attribute, and the markers do not list the identifier
    [hasOwnProperty] with another identifier after it), every entry of the
    reference list holds its entity as [getBibliography] resolves it, and
    a following [getAvailableResources] leaves the document as it is. *)
Theorem resources_after_recompute d :
  (∀ cmp l, sort cmp l ≡ₚ l) →
  findAll sel_xref_bibr d ≠ [] →
  Forall (λ x, is_Some (getAttribute d x "rid")) (findAll sel_xref_bibr d) →
  ¬ hasOwnProperty_then_more (all_rids d (findAll sel_xref_bibr d)) →
  (∀ r, r ∈ findAll sel_ref_list_ref d →
        state_entity (_updateCitationLabels getLabel entityDb sort d).1 r
        = match state_entity d r with
          | Some e => Some e
          | None => getAttribute d r "rid" ≫= entityDb
          end)
  ∧ (getAvailableResources entityDb sort
       (_updateCitationLabels getLabel entityDb sort d).1).1
    = (_updateCitationLabels getLabel entityDb sort d).1.
Proof.
  intros Hsort Hne Hrid Hmore.
  destruct (proj2 (forEach_xref_is_Some getLabel d _) (conj Hrid Hmore))
    as [t Ht].
  rewrite (_updateCitationLabels_Some getLabel entityDb sort d t) by done.
  cbn [fst]. pose proof (written_skeleton entityDb t d) as Hsk. split.
  - intros r Hr. unfold state_entity. rewrite get_written.
    rewrite !decide_True by done.
    rewrite decide_False by (intros Hx; by apply (xref_not_ref _ _ Hx)).
    destruct (findAll_get _ _ _ Hr) as [n ->]. simpl.
    by destruct (state n) as [s|].
  - unfold getAvailableResources. rewrite getBibliography_document.
    rewrite (same_skeleton_findAll _ _ _ Hsk).
    apply document_eq; [apply (apply_at_skeleton _ _ (written entityDb t d))|].
    intros k. rewrite get_apply_at by apply set_entity_idem.
    destruct (decide (k ∈ findAll sel_ref_list_ref d)) as [Hr|]; [|done].
    rewrite get_written. rewrite !decide_True by done.
    destruct (get d k) as [n|]; [|done]. simpl. f_equal.
    unfold update_state, set_entity. simpl.
    rewrite (same_skeleton_getAttribute _ _ _ _ Hsk).
    destruct (decide (k ∈ findAll sel_xref_bibr d)); simpl;
      repeat f_equal;
      destruct (state n) as [s|]; simpl;
      try (destruct (entity s); [done|]);
      by destruct (getAttribute d k "rid" ≫= entityDb).
Qed.

Lemma same_skeleton_getReferenceIds d d' :
  same_skeleton d d' → getReferenceIds d' = getReferenceIds d.
Proof.
  intros H. unfold getReferenceIds. rewrite (same_skeleton_findAll _ _ _ H).
  apply list_fmap_ext. intros _ r _. by apply same_skeleton_getAttribute.
Qed.

(** X8. Neither [_updateCitationLabels] nor [getBibliography] changes
    what [getReferenceIds] returns: the computed state never alters the
    list of entries or their [rid] attributes. *)
Theorem getReferenceIds_is_stable d :
  (∀ cmp l, sort cmp l ≡ₚ l) →
  getReferenceIds (_updateCitationLabels getLabel entityDb sort d).1
  = getReferenceIds d
  ∧ getReferenceIds (getBibliography entityDb sort d).1 = getReferenceIds d.
Proof.
  intros Hsort. split; apply same_skeleton_getReferenceIds.
  - by apply _updateCitationLabels_skeleton.
  - apply getBibliography_skeleton.
Qed.


End MoreBibliography.

(** ** More about the order and label tables *)

Section MoreLabels.
Context {Entity : Type} (getLabel : LabelArg → string).
Implicit Types (d : Document Entity) (t : Labels).

Lemma forEach_xref_app d xs ys t :
  forEach_xref getLabel d (xs ++ ys) t
  = forEach_xref getLabel d xs t ≫= forEach_xref getLabel d ys.
Proof.
  revert t. induction xs as [|x xs IH]; intros t; simpl; [done|].
  destruct (getAttribute d x "rid"); [|done].
  destruct (forEach_rid _ _ _ _) as [[t' numbers]|]; [|done]. apply IH.
Qed.

Lemma all_rids_app d xs ys :
  all_rids d (xs ++ ys) = all_rids d xs ++ all_rids d ys.
Proof. unfold all_rids. apply bind_app. Qed.

Lemma split_word w :
  " "%char ∉ list_ascii_of_string w → JS.split " " w = [w].
Proof.
  induction w as [|c w IH]; simpl; [done|].
  intros [Hc Hw]%not_elem_of_cons.
  rewrite decide_False by done. by rewrite (IH Hw).
Qed.

Lemma split_word_space w s :
  " "%char ∉ list_ascii_of_string w →
  JS.split " " (w +:+ String " " s) = w :: JS.split " " s.
Proof.
  induction w as [|c w IH]; simpl; [done|].
  intros [Hc Hw]%not_elem_of_cons.
  rewrite decide_False by done. by rewrite (IH Hw).
Qed.

Lemma split_concat (ids : list string) :
  ids ≠ [] → Forall (λ w, " "%char ∉ list_ascii_of_string w) ids →
  JS.split " " (String.concat " " ids) = ids.
Proof.
  induction ids as [|w ws IH]; [done|]. intros _ [Hw Hws]%Forall_cons.
  destruct ws as [|w' ws].
  - by apply split_word.
  - change (String.concat " " (w :: w' :: ws))
      with (w +:+ String " " (String.concat " " (w' :: ws))).
    rewrite split_word_space by done. f_equal. by apply IH.
Qed.

Lemma lists_rids_of d x ids : lists d x ids → rids_of d x = ids.
Proof.
  intros (Hne & Hid & Hrid). unfold rids_of. rewrite Hrid. simpl.
  apply split_concat; [done|].
  eapply Forall_impl; [exact Hid|]. by intros w (_ & ? & _).
Qed.

Lemma lists_all_rids d (ids : string → list string) xrefs :
  Forall (λ x, lists d x (ids x)) xrefs →
  all_rids d xrefs = xrefs ≫= ids
  ∧ Forall (λ x, is_Some (getAttribute d x "rid")) xrefs
  ∧ Forall plain (all_rids d xrefs).
Proof.
  induction 1 as [|x xs Hx Hxs (IH1 & IH2 & IH3)].
  - split_and!; [done|constructor|constructor].
  - unfold all_rids in *. cbn [mbind list_bind].
    rewrite (lists_rids_of _ _ _ Hx). split_and!.
    + by rewrite <- IH1.
    + constructor; [|done]. destruct Hx as (_ & _ & ->). eauto.
    + apply Forall_app. split; [|done].
      destruct Hx as (_ & Hid & _).
      eapply Forall_impl; [exact Hid|]. by intros w (_ & _ & ?).
Qed.

(** X10. When the identifiers the markers list are all plain, every marker
    that is read contributes at least one position: its list of positions
    has one entry for each piece of its [rid] attribute and is never
    empty. The first piece of the first marker gets position 1. *)
Theorem every_marker_has_a_position d (xrefs : list string) :
  Forall (λ x, is_Some (getAttribute d x "rid")) xrefs →
  Forall plain (all_rids d xrefs) →
  ∃ t, forEach_xref getLabel d xrefs initial_labels = Some t
    ∧ (∀ x, x ∈ xrefs →
         ∃ numbers, mapM (λ id, order t !! id) (rids_of d x) = Some numbers
                    ∧ length numbers = length (rids_of d x)
                    ∧ numbers ≠ [])
    ∧ (∀ x0 rest, xrefs = x0 :: rest →
         ∃ id0, head (rids_of d x0) = Some id0 ∧ order t !! id0 = Some 1).
Proof.
  intros Hrid Hplain.
  destruct (forEach_xref_inv getLabel d xrefs _ _ (labels_inv_initial _) Hrid
              (Forall_nil_2 _) Hplain)
    as (t & Ht & I & _ & _ & Hlab). simpl in I.
  assert (∀ x, x ∈ xrefs → rids_of d x ≠ []) as Hnil.
  { intros x Hx. rewrite Forall_forall in Hrid.
    destruct (Hrid x Hx) as [rid Hr]. unfold rids_of. rewrite Hr. simpl.
    apply split_nonempty. }
  exists t. split_and!; [done| |].
  - intros x Hx. destruct (Hlab x Hx) as (ns & Hns & _).
    exists ns. split_and!.
    + by apply mapM_Some.
    + symmetry. by eapply Forall2_length.
    + intros ->. apply Forall2_nil_inv_r in Hns. by apply (Hnil x).
  - intros x0 rest ->.
    destruct (rids_of d x0) as [|id0 ids] eqn:E.
    { exfalso. apply (Hnil x0); [apply elem_of_cons; auto|done]. }
    exists id0. split; [done|].
    rewrite (inv_rank _ _ _ I [] id0 (ids ++ all_rids d rest)).
    + done.
    + unfold all_rids. simpl. by rewrite E.
    + apply not_elem_of_nil.
Qed.

(** X11. Reading further markers after a sequence of markers changes
    nothing of what that sequence got, when the identifiers listed are all
    plain: every position and every entry label assigned stays, and the
    label of a marker of the sequence stays unless the same marker is read
    again. *)
Theorem appending_markers_keeps_positions d (xs ys : list string) :
  Forall (λ x, is_Some (getAttribute d x "rid")) (xs ++ ys) →
  Forall plain (all_rids d (xs ++ ys)) →
  ∃ t t', forEach_xref getLabel d xs initial_labels = Some t
    ∧ forEach_xref getLabel d (xs ++ ys) initial_labels = Some t'
    ∧ order t ⊆ order t'
    ∧ refLabels t ⊆ refLabels t'
    ∧ (∀ x, x ∈ xs → x ∉ ys → xrefLabels t' !! x = xrefLabels t !! x).
Proof.
  intros [Hxs Hys]%Forall_app. rewrite all_rids_app.
  intros [Pxs Pys]%Forall_app.
  destruct (forEach_xref_inv getLabel d xs _ _ (labels_inv_initial _) Hxs
              (Forall_nil_2 _) Pxs)
    as (t & Ht & I & _). simpl in I.
  destruct (forEach_xref_inv getLabel d ys _ _ I Hys Pxs Pys)
    as (t' & Ht' & I' & Hsub & Hframe & _).
  exists t, t'. rewrite forEach_xref_app, Ht. simpl. split_and!; try done.
  - apply map_subseteq_spec. intros id l.
    rewrite (inv_refLabels _ _ _ I), (inv_refLabels _ _ _ I').
    destruct (order t !! id) as [n|] eqn:E; [|done].
    by rewrite (lookup_weaken _ _ _ _ E Hsub).
  - intros x _ Hx. by apply Hframe.
Qed.


End MoreLabels.

(** ** The pieces of a [rid] attribute *)

Lemma split_cons_inv sep s :
  ∃ w ws, JS.split sep s = w :: ws.
Proof.
  destruct (JS.split sep s) as [|w ws] eqn:E; [|eauto].
  by apply split_nonempty in E.
Qed.

(** X13. The pieces that line 156 reads off a [rid] attribute contain no
    space, there is one more piece than the attribute has spaces, and the
    pieces joined by single spaces are the attribute again. *)
Theorem pieces_of_rid {Entity} (d : Document Entity) (xref rid : string) :
  getAttribute d xref "rid" = Some rid →
  (∀ w, w ∈ rids_of d xref → " "%char ∉ list_ascii_of_string w)
  ∧ length (rids_of d xref)
    = S (length (List.filter (λ c, bool_decide (c = " "%char))
                             (list_ascii_of_string rid)))
  ∧ String.concat " " (rids_of d xref) = rid.
Proof.
  intros Hrid. unfold rids_of. rewrite Hrid. simpl. clear Hrid.
  induction rid as [|c s IH]; simpl.
  - split_and!; [|done|done].
    intros w Hw%list_elem_of_singleton. subst w. simpl. apply not_elem_of_nil.
  - destruct IH as (IH1 & IH2 & IH3).
    destruct (decide (c = " "%char)) as [->|Hc].
    + rewrite bool_decide_eq_true_2 by done. split_and!.
      * intros w [->|Hw]%elem_of_cons; [apply not_elem_of_nil|by apply IH1].
      * simpl. by rewrite IH2.
      * destruct (split_cons_inv " " s) as (w & ws & E). rewrite E in *.
        simpl. by rewrite <- IH3.
    + rewrite bool_decide_eq_false_2 by done.
      destruct (split_cons_inv " " s) as (w & ws & E). rewrite E in *.
      split_and!.
      * intros w' [->|Hw]%elem_of_cons.
        -- simpl. rewrite not_elem_of_cons. split; [congruence|].
           apply IH1. apply elem_of_cons. auto.
        -- apply IH1. apply elem_of_cons. auto.
      * done.
      * rewrite <- IH3. simpl. by destruct ws.
Qed.

(** ** Markers that list well-formed identifiers *)

Section Identifiers.
Context {Entity : Type}.
Context (getLabel : LabelArg → string) (entityDb : string → option Entity).
Context (sort : (string → string → Z) → list string → list string).
Implicit Types (d : Document Entity) (t : Labels).

(** X19. When every marker lists at least one identifier and every
    identifier is a non-empty word without a space other than
    [hasOwnProperty] and [__proto__], the order map gives every identifier
    that occurs the 1-based rank of its first occurrence, scanning the
    markers in order and the identifiers of each marker in listed order:
    one more than the number of distinct identifiers read before it.
    Identifiers that do not occur get no position. *)
Theorem identifiers_get_rank_of_first_occurrence d
    (xrefs : list string) (ids : string → list string) :
  Forall (λ x, lists d x (ids x)) xrefs →
  ∃ t, forEach_xref getLabel d xrefs initial_labels = Some t
    ∧ (∀ (pre : list string) (id : string) (post : list string),
         xrefs ≫= ids = pre ++ id :: post → id ∉ pre →
         order t !! id = Some (S (size (list_to_set pre : gset string))))
    ∧ (∀ id, id ∉ xrefs ≫= ids → order t !! id = None).
Proof.
  intros Hl. destruct (lists_all_rids d ids xrefs Hl) as (E & Hrid & Hplain).
  destruct (forEach_xref_inv getLabel d xrefs _ _ (labels_inv_initial _) Hrid
              (Forall_nil_2 _) Hplain)
    as (t & Ht & I & _). simpl in I. rewrite E in I.
  exists t. split_and!; [done|apply I|].
  intros id Hid. apply eq_None_not_Some. by rewrite (inv_dom _ _ _ I).
Qed.

(** X20. Under the same condition on the identifiers, the label of an
    in-scope marker, as computed and as stored in the marker's state, is
    the label generator applied to the positions of the identifiers the
    marker lists: one position per listed identifier, in the listed order,
    repeated where an identifier is repeated. A marker whose node id is
    [__proto__] is left out. *)
Theorem marker_label_of_listed_identifiers d (ids : string → list string) :
  (∀ cmp l, sort cmp l ≡ₚ l) →
  Forall (λ x, lists d x (ids x)) (findAll sel_xref_bibr d) →
  ∃ t, forEach_xref getLabel d (findAll sel_xref_bibr d) initial_labels = Some t
    ∧ ∀ xref, xref ∈ findAll sel_xref_bibr d → xref ≠ "__proto__" →
        ∃ numbers : list nat,
          mapM (λ id, order t !! id) (ids xref) = Some numbers
          ∧ xrefLabels t !! xref
            = Some (getLabel (Positions (JS.Own <$> numbers)))
          ∧ state_label (_updateCitationLabels getLabel entityDb sort d).1 xref
            = JS.Own (getLabel (Positions (JS.Own <$> numbers))).
Proof.
  intros Hsort Hl.
  destruct (lists_all_rids d ids _ Hl) as (_ & Hrid & Hplain).
  destruct (forEach_xref_inv getLabel d _ _ _ (labels_inv_initial _) Hrid
              (Forall_nil_2 _) Hplain)
    as (t & Ht & _ & _ & _ & Hlab).
  exists t. split; [done|]. intros x Hx Hp.
  destruct (Hlab x Hx) as (ns & Hns & Hlbl). specialize (Hlbl Hp).
  rewrite Forall_forall in Hl.
  rewrite (lists_rids_of _ _ _ (Hl x Hx)) in Hns.
  exists ns. split_and!; [by apply mapM_Some|done|].
  rewrite (_updateCitationLabels_Some getLabel entityDb sort d t); try done.
  - cbn [fst]. rewrite written_xref by done. by apply read_Some.
  - intros E. rewrite E in Hx. by apply elem_of_nil in Hx.
Qed.

(** X21. Under the same condition on the identifiers, the positions handed
    out are exactly 1, ..., N for N the number of distinct identifiers the
    markers list: every listed identifier has a position, every position
    in the range is taken, and no position is taken twice. *)
Theorem identifiers_get_consecutive_positions d
    (xrefs : list string) (ids : string → list string) :
  Forall (λ x, lists d x (ids x)) xrefs →
  ∃ t, forEach_xref getLabel d xrefs initial_labels = Some t
    ∧ (∀ id, is_Some (order t !! id) ↔ id ∈ xrefs ≫= ids)
    ∧ (∀ n : nat, (∃ id, order t !! id = Some n)
            ↔ (1 ≤ n ≤ size (list_to_set (xrefs ≫= ids) : gset string))%nat)
    ∧ (∀ a b n, order t !! a = Some n → order t !! b = Some n → a = b).
Proof.
  intros Hl. destruct (lists_all_rids d ids xrefs Hl) as (E & Hrid & Hplain).
  destruct (forEach_xref_inv getLabel d xrefs _ _ (labels_inv_initial _) Hrid
              (Forall_nil_2 _) Hplain)
    as (t & Ht & I & _). simpl in I. rewrite E in I.
  exists t. split_and!; [done|apply I| |apply I].
  intros n. rewrite (inv_range _ _ _ I), (inv_next _ _ _ I).
  rewrite (dom_size_seen _ _ _ I). lia.
Qed.

End Identifiers.

(** ** More about classification and the timer queue *)

Section MoreClassifier.
Context {Entity : Type}.
Implicit Types (d : Document Entity) (op : Op) (ops : list Op).

Lemma same_skeleton_attributes d d' k :
  same_skeleton d d' →
  attributes <$> get d' k = attributes <$> get d k.
Proof.
  intros [_ N]. specialize (N k).
  destruct (get d' k), (get d k); simpl in *; try done.
  injection N as _ _ ->. done.
Qed.

Lemma same_skeleton_op_needsUpdate d d' op :
  same_skeleton d d' → op_needsUpdate d' op = op_needsUpdate d op.
Proof.
  intros H. destruct op as [val|val|path val original|]; simpl; try done.
  destruct (bool_decide (path !! 1%nat = Some "attributes")); [|done].
  destruct (_ && _); [done|].
  destruct (bool_decide (path !! 2%nat = Some "rid")); [|done].
  destruct (path !! 0%nat) as [k|]; simpl; [|done].
  pose proof (same_skeleton_attributes d d' k H) as Ha.
  destruct (get d' k), (get d k); simpl in *; try done.
  by injection Ha as ->.
Qed.

Lemma same_skeleton_needsUpdate d d' ops :
  same_skeleton d d' → needsUpdate d' ops = needsUpdate d ops.
Proof.
  intros H. induction ops as [|op ops IH]; simpl; [done|].
  by rewrite (same_skeleton_op_needsUpdate d d' op H), IH.
Qed.

(** X14. The answer of the classifier does not depend on the order of the
    operations in the batch. *)
Theorem classification_ignores_order d ops ops' :
  ops ≡ₚ ops' → needsUpdate d ops = needsUpdate d ops'.
Proof.
  intros Hp.
  destruct (needsUpdate d ops) eqn:E, (needsUpdate d ops') eqn:E'; try done.
  - apply needsUpdate_relevant in E as (op & Hin & R).
    rewrite Hp in Hin.
    rewrite <- E'. symmetry. apply needsUpdate_relevant. eauto.
  - apply needsUpdate_relevant in E' as (op & Hin & R).
    rewrite <- Hp in Hin.
    rewrite <- E. apply needsUpdate_relevant. eauto.
Qed.

End MoreClassifier.

Section MoreSession.
Context {Entity : Type}.
Context (getLabel : LabelArg → string) (entityDb : string → option Entity).
Context (sort : (string → string → Z) → list string → list string).
Implicit Types (d : Document Entity) (s : EditorSession Entity).

(** X15. The state that [_updateCitationLabels] and [getBibliography]
    write never changes how a batch of operations is classified. *)
Theorem classification_ignores_written_state d (ops : list Op) :
  (∀ cmp l, sort cmp l ≡ₚ l) →
  needsUpdate (_updateCitationLabels getLabel entityDb sort d).1 ops
  = needsUpdate d ops
  ∧ needsUpdate (getBibliography entityDb sort d).1 ops = needsUpdate d ops.
Proof.
  intros Hsort. split; apply same_skeleton_needsUpdate.
  - by apply _updateCitationLabels_skeleton.
  - apply getBibliography_skeleton.
Qed.

(** X16. After a run of notifications the timer queue has grown by one
    callback for each notification that needed an update, and by nothing
    else; no notification runs the computation itself, so the document of
    the session is the one the last transaction left. *)
Theorem one_callback_per_relevant_notification s
    (txs : list (Document Entity * list Op)) :
  timers (commit_all s txs)
  = timers s
    ++ replicate (length (List.filter (λ tx, needsUpdate tx.1 tx.2) txs))
                 task_updateCitationLabels
  ∧ getDocument (commit_all s txs) = default (getDocument s) (last (txs.*1)).
Proof.
  revert s. induction txs as [|[d ops] txs IH]; intros s.
  - simpl. by rewrite app_nil_r.
  - change (commit_all s ((d, ops) :: txs))
      with (commit_all (commit s d ops) txs).
    destruct (IH (commit s d ops)) as [-> ->]. simpl.
    destruct (needsUpdate d ops) eqn:E.
    + rewrite (commit_needsUpdate _ _ _ E). simpl. split.
      * by rewrite <- app_assoc.
      * rewrite last_cons. by destruct (last _).
    + rewrite (commit_no_update _ _ _ E). simpl. split; [done|].
      rewrite last_cons. by destruct (last _).
Qed.

Lemma run_timers_settled (ts : list Task) d o :
  _updateCitationLabels getLabel entityDb sort d = (d, o) →
  run_timers getLabel entityDb sort ts d = (d, replicate (length ts) o).
Proof.
  intros H. induction ts as [|[] ts IH]; simpl; [done|].
  by rewrite H, IH.
Qed.

(** X17. However many callbacks wait, running them leaves the document
    that one call of [_updateCitationLabels] leaves, every run ends the way
    the first does, and the queue is empty afterwards. *)
Theorem pending_callbacks_act_as_one s :
  (∀ cmp l, sort cmp l ≡ₚ l) →
  timers s ≠ [] →
  run_pending getLabel entityDb sort s
  = (mkSession (_updateCitationLabels getLabel entityDb sort (getDocument s)).1 [],
     replicate (length (timers s))
               (_updateCitationLabels getLabel entityDb sort (getDocument s)).2).
Proof.
  intros Hsort Hne. unfold run_pending.
  destruct (timers s) as [|[] ts]; [done|]. simpl.
  pose proof (_updateCitationLabels_again getLabel entityDb sort (getDocument s) Hsort)
    as Hagain.
  destruct (_updateCitationLabels getLabel entityDb sort (getDocument s))
    as [d' o] eqn:E. simpl in *.
  by rewrite (run_timers_settled ts d' o Hagain).
Qed.

End MoreSession.

(** ** Earlier state does not show in the result *)

Section Wholesale.
Context {Entity : Type}.
Context (getLabel : LabelArg → string) (entityDb : string → option Entity).
Context (sort : (string → string → Z) → list string → list string).
Implicit Types (d : Document Entity) (t : Labels).

(** X18. When the markers can be read (there is a marker, every marker
    has a [rid] attribute, and the markers do not list the identifier
    [hasOwnProperty] with another identifier after it), the labels of the
    markers and the labels and positions of the entries after the call
    depend on the structure of the document only: two documents that
    differ in node state alone end up with the same labels and positions,
    so nothing of an earlier run is left in them. *)
Theorem labels_are_overwritten_wholesale d1 d2 :
  (∀ cmp l, sort cmp l ≡ₚ l) →
  same_skeleton d1 d2 →
  findAll sel_xref_bibr d1 ≠ [] →
  Forall (λ x, is_Some (getAttribute d1 x "rid")) (findAll sel_xref_bibr d1) →
  ¬ hasOwnProperty_then_more (all_rids d1 (findAll sel_xref_bibr d1)) →
  (∀ x, x ∈ findAll sel_xref_bibr d1 →
        state_label (_updateCitationLabels getLabel entityDb sort d2).1 x
        = state_label (_updateCitationLabels getLabel entityDb sort d1).1 x)
  ∧ (∀ r, r ∈ findAll sel_ref_list_ref d1 →
        state_label (_updateCitationLabels getLabel entityDb sort d2).1 r
        = state_label (_updateCitationLabels getLabel entityDb sort d1).1 r
        ∧ state_pos (_updateCitationLabels getLabel entityDb sort d2).1 r
          = state_pos (_updateCitationLabels getLabel entityDb sort d1).1 r).
Proof.
  intros Hsort Hsk Hne Hrid Hmore.
  destruct (proj2 (forEach_xref_is_Some getLabel d1 _) (conj Hrid Hmore))
    as [t Ht].
  assert (forEach_xref getLabel d2 (findAll sel_xref_bibr d2) initial_labels
          = Some t) as Ht2.
  { rewrite (same_skeleton_findAll _ _ _ Hsk), <- Ht.
    apply forEach_xref_attributes. intros x.
    by apply same_skeleton_getAttribute. }
  rewrite (_updateCitationLabels_Some getLabel entityDb sort d1 t) by done.
  rewrite (_updateCitationLabels_Some getLabel entityDb sort d2 t Hsort);
    [|by rewrite (same_skeleton_findAll _ _ _ Hsk)|exact Ht2].
  cbn [fst]. split.
  - intros x Hx. rewrite !written_xref; [done|done|].
    by rewrite (same_skeleton_findAll _ _ _ Hsk).
  - intros r Hr.
    destruct (written_ref entityDb t d1 r Hr) as [-> ->].
    destruct (written_ref entityDb t d2 r) as [-> ->]; [|done].
    by rewrite (same_skeleton_findAll _ _ _ Hsk).
Qed.

End Wholesale.

(** ** The further properties on the sample documents *)

Lemma doc_P2_has_markers : findAll sel_xref_bibr Sample.doc_P2 ≠ [].
Proof. by rewrite doc_P2_markers. Qed.

Lemma doc_P2_reads :
  ¬ hasOwnProperty_then_more
      (all_rids Sample.doc_P2 (findAll sel_xref_bibr Sample.doc_P2)).
Proof. rewrite <- throws_false. by vm_compute. Qed.

(** The identifiers the two markers of [doc_P2] list. *)
Lemma doc_P2_lists :
  Forall (λ x, lists Sample.doc_P2 x
                 (if decide (x = "x1") then ["B"; "A"] else ["A"; "C"]))
         ["x1"; "x2"].
Proof. by_computation. Qed.

Lemma marker_without_rid_witness :
  Exists (λ x, getAttribute Sample.doc_no_rid x "rid" = None)
         (findAll sel_xref_bibr Sample.doc_no_rid)
  ∧ Sample.recompute Sample.doc_no_rid = (Sample.doc_no_rid, TypeError).
Proof.
  assert (Exists (λ x, getAttribute Sample.doc_no_rid x "rid" = None)
                 (findAll sel_xref_bibr Sample.doc_no_rid)) as H.
  { apply Exists_exists. exists "x1". split; [by_computation|by vm_compute]. }
  split; [exact H|].
  exact (marker_without_rid_leaves_document Sample.numeric_label Sample.entities
           Sample.sort_gt Sample.doc_no_rid H).
Defined.

Lemma flow_reports_witness :
  (∀ (cmp : string → string → Z) l, Sample.sort_gt cmp l ≡ₚ l)
  ∧ (Sample.recompute Sample.doc_P2).2
    = Flow (list_to_set ["x1"; "x2"; "A"; "B"; "C"; "D"; "ref-list-1"])
  ∧ ∀ k, k ∈ (list_to_set ["x1"; "x2"; "A"; "B"; "C"; "D"; "ref-list-1"]
               : gset string)
         ↔ k ∈ findAll sel_xref_bibr Sample.doc_P2
           ∨ k ∈ findAll sel_ref_list_ref Sample.doc_P2
           ∨ find sel_ref_list Sample.doc_P2 = Some k.
Proof.
  assert ((Sample.recompute Sample.doc_P2).2
          = Flow (list_to_set ["x1"; "x2"; "A"; "B"; "C"; "D"; "ref-list-1"]))
    as H by (by vm_compute).
  split_and!; [exact sort_gt_perm|exact H|].
  exact (flow_reports_markers_entries_and_list Sample.numeric_label
           Sample.entities Sample.sort_gt Sample.doc_P2 _ sort_gt_perm H).
Defined.

Lemma call_writes_state_witness :
  (∀ (cmp : string → string → Z) l, Sample.sort_gt cmp l ≡ₚ l)
  ∧ get (Sample.recompute Sample.doc_P2).1 "body" = get Sample.doc_P2 "body"
  ∧ state_pos (Sample.recompute Sample.doc_P2).1 "x1" = JS.Undefined.
Proof.
  split; [exact sort_gt_perm|].
  destruct (call_writes_state_of_markers_and_entries_only Sample.numeric_label
              Sample.entities Sample.sort_gt Sample.doc_P2 sort_gt_perm)
    as (_ & _ & Hframe & Hmarker).
  unfold Sample.recompute. split.
  - apply Hframe; by_computation.
  - destruct (Hmarker "x1") as [-> _]; [by_computation|by vm_compute].
Defined.

Lemma resources_after_recompute_witness :
  (∀ (cmp : string → string → Z) l, Sample.sort_gt cmp l ≡ₚ l)
  ∧ findAll sel_xref_bibr Sample.doc_P2 ≠ []
  ∧ Forall (λ x, is_Some (getAttribute Sample.doc_P2 x "rid"))
           (findAll sel_xref_bibr Sample.doc_P2)
  ∧ ¬ hasOwnProperty_then_more
        (all_rids Sample.doc_P2 (findAll sel_xref_bibr Sample.doc_P2))
  ∧ state_entity (Sample.recompute Sample.doc_P2).1 "A" = Some "Knuth 1968"
  ∧ state_entity (Sample.recompute Sample.doc_P2).1 "C" = None
  ∧ (getAvailableResources Sample.entities Sample.sort_gt
       (Sample.recompute Sample.doc_P2).1).1
    = (Sample.recompute Sample.doc_P2).1.
Proof.
  split_and!; [exact sort_gt_perm|exact doc_P2_has_markers|exact doc_P2_rids
              |exact doc_P2_reads|..].
  all: destruct (resources_after_recompute Sample.numeric_label Sample.entities
                   Sample.sort_gt Sample.doc_P2 sort_gt_perm doc_P2_has_markers
                   doc_P2_rids doc_P2_reads) as [Hent Hread].
  - unfold Sample.recompute. rewrite (Hent "A") by by_computation. by vm_compute.
  - unfold Sample.recompute. rewrite (Hent "C") by by_computation. by vm_compute.
  - exact Hread.
Defined.

Lemma getReferenceIds_witness :
  (∀ (cmp : string → string → Z) l, Sample.sort_gt cmp l ≡ₚ l)
  ∧ getReferenceIds Sample.doc_P2
    = [Some "entity-1"; Some "entity-2"; Some "entity-3"; Some "entity-4"]
  ∧ getReferenceIds (Sample.recompute Sample.doc_P2).1
    = getReferenceIds Sample.doc_P2
  ∧ getReferenceIds (getBibliography Sample.entities Sample.sort_gt Sample.doc_P2).1
    = getReferenceIds Sample.doc_P2.
Proof.
  split_and!; [exact sort_gt_perm|by vm_compute|..];
    apply (getReferenceIds_is_stable Sample.numeric_label Sample.entities
             Sample.sort_gt Sample.doc_P2 sort_gt_perm).
Defined.


Lemma every_marker_witness :
  Forall (λ x, is_Some (getAttribute Sample.doc_P2 x "rid")) ["x1"; "x2"]
  ∧ Forall plain (all_rids Sample.doc_P2 ["x1"; "x2"])
  ∧ ∃ t, forEach_xref Sample.numeric_label Sample.doc_P2 ["x1"; "x2"] initial_labels
         = Some t
       ∧ order t !! "B" = Some 1.
Proof.
  assert (Forall (λ x, is_Some (getAttribute Sample.doc_P2 x "rid")) ["x1"; "x2"])
    as H by (repeat constructor; vm_compute; eauto).
  assert (Forall plain (all_rids Sample.doc_P2 ["x1"; "x2"])) as Hp
    by by_computation.
  split_and!; [exact H|exact Hp|].
  destruct (every_marker_has_a_position Sample.numeric_label Sample.doc_P2
              ["x1"; "x2"] H Hp) as (t & Ht & _ & Hfirst).
  exists t. split; [exact Ht|].
  destruct (Hfirst "x1" ["x2"] eq_refl) as (id0 & Hhead & Hpos).
  vm_compute in Hhead. injection Hhead as <-. exact Hpos.
Defined.

Lemma appending_markers_witness :
  Forall (λ x, is_Some (getAttribute MoreSamples.doc_P2_more x "rid"))
         (["x1"; "x2"] ++ ["x3"])
  ∧ Forall plain (all_rids MoreSamples.doc_P2_more (["x1"; "x2"] ++ ["x3"]))
  ∧ ∃ t t',
      forEach_xref Sample.numeric_label MoreSamples.doc_P2_more ["x1"; "x2"]
        initial_labels = Some t
      ∧ forEach_xref Sample.numeric_label MoreSamples.doc_P2_more
          (["x1"; "x2"] ++ ["x3"]) initial_labels = Some t'
      ∧ order t ⊆ order t'
      ∧ refLabels t ⊆ refLabels t'
      ∧ (∀ x, x ∈ ["x1"; "x2"] → x ∉ ["x3"] →
              xrefLabels t' !! x = xrefLabels t !! x).
Proof.
  assert (Forall (λ x, is_Some (getAttribute MoreSamples.doc_P2_more x "rid"))
                 (["x1"; "x2"] ++ ["x3"]))
    as H by (repeat constructor; vm_compute; eauto).
  assert (Forall plain
            (all_rids MoreSamples.doc_P2_more (["x1"; "x2"] ++ ["x3"]))) as Hp
    by by_computation.
  split_and!; [exact H|exact Hp|].
  exact (appending_markers_keeps_positions Sample.numeric_label
           MoreSamples.doc_P2_more ["x1"; "x2"] ["x3"] H Hp).
Defined.


Lemma pieces_of_rid_witness :
  getAttribute Sample.doc_P2 "x1" "rid" = Some "B A"
  ∧ rids_of Sample.doc_P2 "x1" = ["B"; "A"]
  ∧ String.concat " " (rids_of Sample.doc_P2 "x1") = "B A".
Proof.
  assert (getAttribute Sample.doc_P2 "x1" "rid" = Some "B A") as H
    by (by vm_compute).
  split_and!; [exact H|by vm_compute|].
  apply (pieces_of_rid Sample.doc_P2 "x1" "B A" H).
Defined.

Lemma classification_order_witness :
  MoreSamples.ops_mixed ≡ₚ rev MoreSamples.ops_mixed
  ∧ needsUpdate Sample.doc_P2 MoreSamples.ops_mixed = true
  ∧ needsUpdate Sample.doc_P2 (rev MoreSamples.ops_mixed) = true.
Proof.
  assert (needsUpdate Sample.doc_P2 MoreSamples.ops_mixed = true) as H
    by (by vm_compute).
  split_and!; [apply Permutation_rev|exact H|].
  rewrite <- H. symmetry.
  exact (classification_ignores_order Sample.doc_P2 MoreSamples.ops_mixed
           (rev MoreSamples.ops_mixed) (Permutation_rev _)).
Defined.

Lemma classification_state_witness :
  (∀ (cmp : string → string → Z) l, Sample.sort_gt cmp l ≡ₚ l)
  ∧ needsUpdate (Sample.recompute Sample.doc_P2).1 Sample.ops_retarget_x2
    = needsUpdate Sample.doc_P2 Sample.ops_retarget_x2
  ∧ needsUpdate (getBibliography Sample.entities Sample.sort_gt Sample.doc_P2).1
      Sample.ops_retarget_x2
    = needsUpdate Sample.doc_P2 Sample.ops_retarget_x2.
Proof.
  split; [exact sort_gt_perm|].
  exact (classification_ignores_written_state Sample.numeric_label Sample.entities
           Sample.sort_gt Sample.doc_P2 Sample.ops_retarget_x2 sort_gt_perm).
Defined.

Lemma pending_callbacks_witness :
  (∀ (cmp : string → string → Z) l, Sample.sort_gt cmp l ≡ₚ l)
  ∧ timers Sample.session_P2 ≠ []
  ∧ run_pending Sample.numeric_label Sample.entities Sample.sort_gt
      Sample.session_P2
    = (mkSession (Sample.recompute (getDocument Sample.session_P2)).1 [],
       replicate (length (timers Sample.session_P2))
                 (Sample.recompute (getDocument Sample.session_P2)).2).
Proof.
  assert (timers Sample.session_P2 ≠ []) as H by (by vm_compute).
  split_and!; [exact sort_gt_perm|exact H|].
  exact (pending_callbacks_act_as_one Sample.numeric_label Sample.entities
           Sample.sort_gt Sample.session_P2 sort_gt_perm H).
Defined.

Lemma overwritten_wholesale_witness :
  (∀ (cmp : string → string → Z) l, Sample.sort_gt cmp l ≡ₚ l)
  ∧ same_skeleton Sample.doc_P2
      (getBibliography Sample.entities Sample.sort_gt
         (Sample.recompute Sample.doc_P2).1).1
  ∧ findAll sel_xref_bibr Sample.doc_P2 ≠ []
  ∧ Forall (λ x, is_Some (getAttribute Sample.doc_P2 x "rid"))
           (findAll sel_xref_bibr Sample.doc_P2)
  ∧ ¬ hasOwnProperty_then_more
        (all_rids Sample.doc_P2 (findAll sel_xref_bibr Sample.doc_P2))
  ∧ state_label
      (Sample.recompute
         (getBibliography Sample.entities Sample.sort_gt
            (Sample.recompute Sample.doc_P2).1).1).1 "D"
    = state_label (Sample.recompute Sample.doc_P2).1 "D".
Proof.
  assert (same_skeleton Sample.doc_P2
            (getBibliography Sample.entities Sample.sort_gt
               (Sample.recompute Sample.doc_P2).1).1) as Hsk.
  { eapply same_skeleton_trans; [|apply getBibliography_skeleton].
    apply _updateCitationLabels_skeleton, sort_gt_perm. }
  split_and!;
    [exact sort_gt_perm|exact Hsk|exact doc_P2_has_markers|exact doc_P2_rids
    |exact doc_P2_reads|].
  destruct (labels_are_overwritten_wholesale Sample.numeric_label Sample.entities
              Sample.sort_gt Sample.doc_P2 _ sort_gt_perm Hsk doc_P2_has_markers
              doc_P2_rids doc_P2_reads) as [_ Hrefs].
  apply (Hrefs "D"). by_computation.
Defined.

Lemma identifiers_rank_witness :
  Forall (λ x, lists Sample.doc_P2 x
                 (if decide (x = "x1") then ["B"; "A"] else ["A"; "C"]))
         ["x1"; "x2"]
  ∧ ∃ t, forEach_xref Sample.numeric_label Sample.doc_P2 ["x1"; "x2"] initial_labels
         = Some t
       ∧ order t !! "B" = Some 1 ∧ order t !! "A" = Some 2
       ∧ order t !! "C" = Some 3 ∧ order t !! "D" = None.
Proof.
  split; [exact doc_P2_lists|].
  destruct (identifiers_get_rank_of_first_occurrence Sample.numeric_label
              Sample.doc_P2 ["x1"; "x2"] _ doc_P2_lists)
    as (t & Ht & Hrank & Hnone).
  exists t. split_and!; [exact Ht|..].
  - apply (Hrank [] "B" ["A"; "A"; "C"]); [done|apply not_elem_of_nil].
  - apply (Hrank ["B"] "A" ["A"; "C"]); [done|by_computation].
  - apply (Hrank ["B"; "A"; "A"] "C" []); [done|by_computation].
  - apply Hnone. by_computation.
Defined.

Lemma marker_label_witness :
  (∀ (cmp : string → string → Z) l, Sample.sort_gt cmp l ≡ₚ l)
  ∧ Forall (λ x, lists Sample.doc_P2 x
                   (if decide (x = "x1") then ["B"; "A"] else ["A"; "C"]))
           (findAll sel_xref_bibr Sample.doc_P2)
  ∧ state_label (Sample.recompute Sample.doc_P2).1 "x2" = JS.Own "2,3".
Proof.
  assert (Forall (λ x, lists Sample.doc_P2 x
                         (if decide (x = "x1") then ["B"; "A"] else ["A"; "C"]))
                 (findAll sel_xref_bibr Sample.doc_P2)) as Hl
    by (rewrite doc_P2_markers; exact doc_P2_lists).
  split_and!; [exact sort_gt_perm|exact Hl|].
  destruct (marker_label_of_listed_identifiers Sample.numeric_label
              Sample.entities Sample.sort_gt Sample.doc_P2 _ sort_gt_perm Hl)
    as (t & Ht & Hlab).
  destruct (Hlab "x2") as (ns & Hns & _ & Hstate); [by_computation|done|].
  unfold Sample.recompute. rewrite Hstate.
  vm_compute in Ht. injection Ht as <-.
  vm_compute in Hns. injection Hns as <-. by vm_compute.
Defined.

Lemma identifiers_consecutive_witness :
  Forall (λ x, lists Sample.doc_P2 x
                 (if decide (x = "x1") then ["B"; "A"] else ["A"; "C"]))
         ["x1"; "x2"]
  ∧ ∃ t, forEach_xref Sample.numeric_label Sample.doc_P2 ["x1"; "x2"] initial_labels
         = Some t
       ∧ (∀ n : nat, (∃ id, order t !! id = Some n) ↔ (1 ≤ n ≤ 3)%nat).
Proof.
  split; [exact doc_P2_lists|].
  destruct (identifiers_get_consecutive_positions Sample.numeric_label
              Sample.doc_P2 ["x1"; "x2"] _ doc_P2_lists)
    as (t & Ht & _ & Hrange & _).
  exists t. split; [exact Ht|exact Hrange].
Defined.
